(** * bench_pffft.c: validation and benchmark harness of PFFFT

    A shallow embedding of the harness [bench_pffft.c]: the integer helper
    [Log2], the validation routine [pffft_validate_N] and its sweep
    [pffft_validate], the calibration probe [cal_benchmark], the timing
    routine [benchmark_ffts] and the driver [main].

    The transform kernels (PFFFT itself, FFTPACK, vDSP, FFTW, Green, Kiss),
    the clock and libm's [log] are external to the file: they are
    variables of the sections below, and every theorem holds for all of
    them.

    C [float] and [double] are IEEE-754 binary32 and binary64, modelled
    with the parameterised operations of the standard library's
    [SpecFloat] at precisions (24, 128) and (53, 1024).  Every arithmetic
    operation is rounded to the type of its operands, as on the SSE builds
    the header of the source recommends ([-msse -mfpmath=sse]). *)

From Stdlib Require Import ZArith List Bool Lia.
From Stdlib Require Import SpecFloat.
From Stdlib Require Import Reals Lra.
Import ListNotations.
Local Open Scope Z_scope.

(** ** IEEE-754 formats *)

Section Format.
Variables prec emax : Z.

  (** Rounding of an arbitrary value [(-1)^s * m * 2^e] to the format: the
      conversion performed by a C cast or an assignment between [float]
      and [double]. *)
Definition fmt_round (x : spec_float) : spec_float :=
    match x with
    | S754_finite s m e => binary_round prec emax s m e
    | _ => x
    end.

  (** Conversion of an [int] to the format. *)
Definition fmt_of_Z (n : Z) : spec_float := binary_normalize prec emax n 0 false.
End Format.

Definition float := spec_float.
Definition double := spec_float.

Module F32.
Definition prec := 24.
Definition emax := 128.
Definition of_Z : Z -> float := fmt_of_Z prec emax.
Definition add : float -> float -> float := SFadd prec emax.
Definition sub : float -> float -> float := SFsub prec emax.
Definition mul : float -> float -> float := SFmul prec emax.
Definition div : float -> float -> float := SFdiv prec emax.
Definition sqrt : float -> float := SFsqrt prec emax.
Definition eqb : float -> float -> bool := SFeqb.
Definition ltb : float -> float -> bool := SFltb.
Definition gtb (x y : float) : bool := SFltb y x.
Definition zero : float := S754_zero false.
Definition one : float := of_Z 1.
End F32.

Module F64.
Definition prec := 53.
Definition emax := 1024.
Definition of_Z : Z -> double := fmt_of_Z prec emax.
Definition add : double -> double -> double := SFadd prec emax.
Definition sub : double -> double -> double := SFsub prec emax.
Definition mul : double -> double -> double := SFmul prec emax.
Definition div : double -> double -> double := SFdiv prec emax.
Definition eqb : double -> double -> bool := SFeqb.
Definition ltb : double -> double -> bool := SFltb.
Definition gtb (x y : double) : bool := SFltb y x.
Definition zero : double := S754_zero false.
  (** The decimal literal whose value is the fraction [a/b]: the double
      nearest to it, which is what the division returns on the two exact
      integers. *)
Definition lit (a b : positive) : double :=
  div (S754_finite false a 0) (S754_finite false b 0).
End F64.

(** [(double)x] for a [float] [x] (exact) and [(float)x] for a [double] [x]
    (rounded to nearest). *)
Definition f2d (x : float) : double := fmt_round F64.prec F64.emax x.
Definition d2f (x : double) : float := fmt_round F32.prec F32.emax x.

(** [fabs] of libm, on doubles. *)
Definition fabs (x : double) : double := SFabs x.


(** ** Arrays and control effects *)

(** In the validation a [float*] buffer is the list of its cells; [rd]
    reads a cell and [upd] writes one.  The loops of the validation only
    touch indices below the length of the buffers they allocate. *)
Definition rd (l : list float) (k : nat) : float := nth k l F32.zero.

Fixpoint upd (l : list float) (k : nat) (v : float) : list float :=
  match l, k with
  | [], _ => []
  | _ :: l', O => v :: l'
  | x :: l', S k' => x :: upd l' k' v
  end.

(** How a call ends: it returns, the process exits through [exit(code)],
    or a failed [assert] aborts the process.  Two more cases belong to the
    model: [Undefined] is undefined behaviour, a conversion of a
    [double] that no [int] represents or an [int] operation that
    overflows, and [OutOfFuel] is a timed loop cut off by the bound the
    model puts on its number of rounds. *)
Inductive result (A : Type) : Type :=
| Returns (a : A)
| Exits (code : Z)
| Aborts
| Undefined
| OutOfFuel.
Arguments Returns {A} a.
Arguments Exits {A} code.
Arguments Aborts {A}.
Arguments Undefined {A}.
Arguments OutOfFuel {A}.

(** The lines the validation prints, one constructor per [printf]. *)
Inductive msg : Type :=
| MsgSkipping (N : Z)                          (* "Skipping N=%d, not supported" *)
| MsgForwardMismatch (cplx : bool) (N : Z)     (* "%s forward PFFFT mismatch found for N=%d" *)
| MsgIFFTMismatch (pass : Z) (cplx : bool) (N : Z) (* "pass=%d, %s IFFFT does not match for N=%d" *)
| MsgZconvolveError (conv_err conv_max : float) (* "zconvolve error ? %g %g" *)
| MsgIsOK (cplx : bool) (N : Z).               (* "%s PFFFT is OK for N=%d" *)

(** Validation code prints and may stop the process. *)
Definition V (A : Type) : Type := (list msg * result A)%type.

Definition ret {A} (a : A) : V A := ([], Returns a).

Definition bind {A B} (c : V A) (k : A -> V B) : V B :=
  match c with
  | (l, Returns a) => let (l', r) := k a in (l ++ l', r)
  | (l, Exits code) => (l, Exits code)
  | (l, Aborts) => (l, Aborts)
  | (l, Undefined) => (l, Undefined)
  | (l, OutOfFuel) => (l, OutOfFuel)
  end.

Declare Scope harness_scope.
Delimit Scope harness_scope with harness.
Notation "x <- c ;; k" := (bind c (fun x => k))
  (at level 61, c at next level, right associativity) : harness_scope.
Notation "' pat <- c ;; k" := (bind c (fun x => match x with pat => k end))
  (at level 61, pat pattern, c at next level, right associativity) : harness_scope.
Notation "c ;; k" := (bind c (fun _ => k))
  (at level 61, right associativity) : harness_scope.
Local Open Scope harness_scope.

Definition printf (m : msg) : V unit := ([m], Returns tt).
Definition exit {A} (code : Z) : V A := ([], Exits code).
Definition assert (b : bool) : V unit := if b then ret tt else ([], Aborts).

(** [for (k = ...; ...; ...) body], over the indices [ks] in order. *)
Fixpoint for_each (ks : list nat) (body : nat -> V unit) : V unit :=
  match ks with
  | [] => ret tt
  | k :: ks' => body k ;; for_each ks' body
  end.

(** ** Integer helpers *)

(** [#define MAX(x,y) ((x)>(y)?(x):(y))] on [int]. *)
Definition MAX (x y : Z) : Z := if x >? y then x else y.

(** [unsigned Log2(unsigned v)]: [while (v >>= 1) r++;] on a 32-bit word.
    The loop body runs at most 32 times. *)
Fixpoint Log2_loop (fuel : nat) (v r : Z) : Z :=
  match fuel with
  | O => r
  | S fuel' =>
      let v' := Z.shiftr v 1 in
      if v' =? 0 then r else Log2_loop fuel' v' (r + 1)
  end.

Definition Log2 (v : Z) : Z := Log2_loop 32 (v mod 2 ^ 32) 0.

(** ** The kernels as the validation sees them

    [pffft.h] and [fftpack.h] are not part of the file.  During validation
    every kernel entry point reads its input buffer(s) and fills its
    output buffer, so it is a function from the contents of the inputs to
    the new contents of the output.  The flag [inplace] tells whether the
    call passed the same pointer as input and output; the work pointer is
    always [0] here. *)

Inductive pffft_direction_t := PFFFT_FORWARD | PFFFT_BACKWARD.
Inductive pffft_transform_t := PFFFT_REAL | PFFFT_COMPLEX.

Record ValKernel : Type := {
  Setup : Type;
  pffft_new_setup : Z -> pffft_transform_t -> option Setup;
  pffft_transform : Setup -> list float -> bool -> pffft_direction_t -> list float;
  pffft_transform_ordered : Setup -> list float -> bool -> pffft_direction_t -> list float;
  pffft_zreorder : Setup -> list float -> pffft_direction_t -> list float;
  (* [pffft_zconvolve_accumulate(s, a, b, ab, scaling)]: the new [ab] *)
  pffft_zconvolve_accumulate :
    Setup -> list float -> list float -> list float -> float -> list float;
  (* FFTPACK, in place on its second argument, after [rffti]/[cffti] *)
  rfftf : Z -> list float -> list float;
  cfftf : Z -> list float -> list float;
  (* [RAND_MAX] of the C library *)
  RAND_MAX : Z
}.

(** [double frand() { return rand()/(double)RAND_MAX; }], given the value
    [r] that [rand()] returned. *)
Definition frand (K : ValKernel) (r : Z) : double :=
  F64.div (F64.of_Z r) (F64.of_Z (RAND_MAX K)).

Definition kind_of (cplx : bool) : pffft_transform_t :=
  if cplx then PFFFT_COMPLEX else PFFFT_REAL.

(** ** pffft_validate_N *)

Section ValidateN.
Variable K : ValKernel.
Variable s : Setup K.
Variables (N : Z) (cplx : bool).

Definition Nfloat_of : nat := Z.to_nat (N * (if cplx then 2 else 1)).
Let Nfloat := Nfloat_of.
Let ks : list nat := seq 0 Nfloat.

  (** [ref[k] = in[k] = frand()*2-1;] for the draws [rand 0], [rand 1], ...
      of [rand()]. *)
Definition random_input (rand : nat -> Z) : list float :=
    map (fun k => d2f (F64.sub (F64.mul (frand K (rand k)) (F64.of_Z 2)) (F64.of_Z 1))) ks.

  (** The loop [for (k=N-2; k >= 1; --k) ref[k+1] = ref[k];] between
      [refN = ref[N-1]] and [ref[1] = refN]. *)
Definition fftpack_to_pffft_order (ref : list float) : list float :=
    let refN := rd ref (Z.to_nat (N - 1)) in
    let shifted :=
      fold_left (fun r k => upd r (S k) (rd r k)) (rev (seq 1 (Z.to_nat (N - 2)))) ref in
    upd shifted 1 refN.

  (** The reference solution of pass 0. *)
Definition reference (inp : list float) : list float :=
    if cplx then cfftf K N inp
    else fftpack_to_pffft_order (rfftf K N inp).

  (** [for (k = 0; k < Nfloat; ++k) ref_max = MAX(ref_max, fabs(ref[k]));]
      with [float ref_max = 0]: the macro compares and selects doubles,
      the assignment converts back to [float]. *)
Definition ref_max_step (ref_max : float) (r : float) : float :=
    let x := f2d ref_max in
    let y := fabs (f2d r) in
    d2f (if F64.gtb x y then x else y).

Definition ref_max_of (ref : list float) : float :=
    fold_left (fun m k => ref_max_step m (rd ref k)) ks F32.zero.

  (** The transform of a pass: [pffft_transform] in pass 0,
      [pffft_transform_ordered] in pass 1. *)
Definition transform_of (pass : Z) :=
    if pass =? 0 then pffft_transform K s else pffft_transform_ordered K s.

  (** [assert(a[k] == b[k])] for every [k < Nfloat]. *)
Definition assert_same (a b : list float) : V unit :=
    for_each ks (fun k => assert (F32.eqb (rd a k) (rd b k))).

  (** Lines 253-281: the forward transform with separate buffers, then in
      place, compared cell by cell; in pass 0 the reorder round trip.
      Returns the buffers [(tmp, out)]. *)
Definition forward_stage (pass : Z) (inp : list float) : V (list float * list float) :=
    let tmp := transform_of pass inp false PFFFT_FORWARD in
    let tmp2 := tmp in                                   (* memcpy(tmp2, tmp) *)
    let tmp := inp in                                    (* memcpy(tmp, in) *)
    let tmp := transform_of pass tmp true PFFFT_FORWARD in
    assert_same tmp2 tmp ;;
    if pass =? 0 then
      let out := pffft_zreorder K s tmp PFFFT_FORWARD in
      let tmp := pffft_zreorder K s out PFFFT_BACKWARD in
      assert_same tmp2 tmp ;;
      let out := pffft_zreorder K s tmp PFFFT_FORWARD in
      ret (tmp, out)
    else
      ret (tmp, tmp).                                    (* memcpy(out, tmp) *)

  (** Lines 284-289: comparison with the reference. *)
Definition forward_mismatch (ref_max : float) (r o : float) : bool :=
    negb (F64.ltb (fabs (f2d (F32.sub r o)))
                  (F64.mul (F64.lit 1 1000) (f2d ref_max))).

Definition forward_check (ref out : list float) (ref_max : float) : V unit :=
    for_each ks (fun k =>
      if forward_mismatch ref_max (rd ref k) (rd out k)
      then printf (MsgForwardMismatch cplx N) ;; exit 1
      else ret tt).

  (** Lines 291-300: the backward transform with separate buffers, then
      in place; the loop asserts the two agree and scales [out] by
      [1.f/N].  Returns [out]. *)
Fixpoint backward_loop (l : list nat) (tmp2 out : list float) : V (list float) :=
    match l with
    | [] => ret out
    | k :: l' =>
        assert (F32.eqb (rd tmp2 k) (rd out k)) ;;
        backward_loop l' tmp2
          (upd out k (F32.mul (rd out k) (F32.div F32.one (F32.of_Z N))))
    end.

Definition backward_stage (pass : Z) (tmp : list float) : V (list float) :=
    let out := transform_of pass tmp false PFFFT_BACKWARD in
    let tmp2 := out in                                   (* memcpy(tmp2, out) *)
    let out := tmp in                                    (* memcpy(out, tmp) *)
    let out := transform_of pass out true PFFFT_BACKWARD in
    backward_loop ks tmp2 out.

  (** Lines 301-306: the round trip.  The body of the [if] is
      [printf(...); break; exit(1);]: the [break] leaves the loop, and the
      [exit(1)] that follows it is never reached. *)
Definition roundtrip_mismatch (ref_max : float) (i o : float) : bool :=
    F64.gtb (fabs (f2d (F32.sub i o)))
            (F64.mul (F64.lit 1 1000) (f2d ref_max)).

Fixpoint roundtrip_loop (pass : Z) (l : list nat) (inp out : list float)
      (ref_max : float) : V unit :=
    match l with
    | [] => ret tt
    | k :: l' =>
        if roundtrip_mismatch ref_max (rd inp k) (rd out k)
        then printf (MsgIFFTMismatch pass cplx N)       (* break *)
        else roundtrip_loop pass l' inp out ref_max
    end.

  (** Lines 309-337: the convolution check.  [conv_square] is the loop
      over the pairs [(tmp[k], tmp[k+1])], [k = 0, 2, 4, ...]. *)
Definition square_pair (tmp : list float) (k : nat) : list float :=
    let ar := rd tmp k in
    let ai := rd tmp (S k) in
    if cplx || (0 <? k)%nat then
      upd (upd tmp k (F32.sub (F32.mul ar ar) (F32.mul ai ai)))
          (S k) (F32.mul (F32.mul (F32.of_Z 2) ar) ai)
    else
      upd (upd tmp 0 (F32.mul ar ar)) 1 (F32.mul ai ai).

Definition even_indices : list nat :=
    map (fun i => (2 * i)%nat) (seq 0 (Nat.div2 (S Nfloat))).

Definition conv_square (tmp : list float) : list float :=
    fold_left square_pair even_indices tmp.

Definition conv_expected (ref : list float) : list float :=
    conv_square (pffft_zreorder K s ref PFFFT_FORWARD).

Definition conv_actual (ref : list float) : list float :=
    let out := repeat F32.zero Nfloat in                 (* memset(out, 0, Nbytes) *)
    let out := pffft_zconvolve_accumulate K s ref ref out F32.one in
    pffft_zreorder K s out PFFFT_FORWARD.

  (** [float d = fabs(tmp[k] - tmp2[k]), e = fabs(tmp[k]);] *)
Definition conv_d (tmp tmp2 : list float) (k : nat) : float :=
    d2f (fabs (f2d (F32.sub (rd tmp k) (rd tmp2 k)))).
Definition conv_e (tmp : list float) (k : nat) : float :=
    d2f (fabs (f2d (rd tmp k))).

  (** [if (d > acc) acc = d;] *)
Definition keep_max (acc d : float) : float := if F32.gtb d acc then d else acc.

Definition conv_err_of (tmp tmp2 : list float) : float :=
    fold_left (fun acc k => keep_max acc (conv_d tmp tmp2 k)) ks F32.zero.
Definition conv_max_of (tmp : list float) : float :=
    fold_left (fun acc k => keep_max acc (conv_e tmp k)) ks F32.zero.

  (** [conv_err > 1e-5*conv_max] *)
Definition conv_exceeds (conv_err conv_max : float) : bool :=
    F64.gtb (f2d conv_err) (F64.mul (F64.lit 1 100000) (f2d conv_max)).

Definition conv_stage (ref : list float) : V unit :=
    let tmp := conv_expected ref in
    let tmp2 := conv_actual ref in
    let conv_err := conv_err_of tmp tmp2 in
    let conv_max := conv_max_of tmp in
    if conv_exceeds conv_err conv_max
    then printf (MsgZconvolveError conv_err conv_max) ;; exit 1
    else ret tt.

  (** One iteration of [for (pass=0; pass < 2; ++pass)]. *)
Definition validate_pass (inp ref : list float) (pass : Z) : V unit :=
    let ref_max := ref_max_of ref in
    '(tmp, out) <- forward_stage pass inp ;;
    forward_check ref out ref_max ;;
    out <- backward_stage pass tmp ;;
    roundtrip_loop pass ks inp out ref_max ;;
    conv_stage ref.

Definition forward_inplace (pass : Z) (inp : list float) : list float :=
  transform_of pass inp true PFFFT_FORWARD.
Definition reorder_roundtrip (y : list float) : list float :=
  pffft_zreorder K s (pffft_zreorder K s y PFFFT_FORWARD) PFFFT_BACKWARD.
Definition spectrum_kept (pass : Z) (inp : list float) : list float :=
  if pass =? 0 then reorder_roundtrip (forward_inplace pass inp)
  else forward_inplace pass inp.
Definition backward_inplace (pass : Z) (inp : list float) : list float :=
  transform_of pass (spectrum_kept pass inp) true PFFFT_BACKWARD.

(** The body of [pffft_validate_N] once the setup exists. *)
Definition validate_with_setup (rand : nat -> Z) : V unit :=
    let inp := random_input rand in
    let ref := reference inp in
    validate_pass inp ref 0 ;;
    validate_pass inp ref 1 ;;
    printf (MsgIsOK cplx N).
End ValidateN.

Definition pffft_validate_N (K : ValKernel) (rand : nat -> Z) (N : Z) (cplx : bool) : V unit :=
  match pffft_new_setup K N (kind_of cplx) with
  | None => printf (MsgSkipping N)                       (* return *)
  | Some s => validate_with_setup K s N cplx rand
  end.

(** ** pffft_validate *)

Definition Ntest : list Z :=
  [16; 32; 64; 96; 128; 160; 192; 256; 288; 384; 5*96; 512; 576; 5*128; 800;
   864; 1024; 2048; 2592; 4000; 4096; 12000; 36864].

(** [rand N k] is the [k]-th value [rand()] returns while size [N] is
    validated. *)
Fixpoint validate_sizes (K : ValKernel) (rand : Z -> nat -> Z) (cplx : bool)
    (sizes : list Z) : V unit :=
  match sizes with
  | [] => ret tt
  | N :: rest =>
      (if (N =? 16) && negb cplx then ret tt             (* continue *)
       else pffft_validate_N K (rand N) N cplx) ;;
      validate_sizes K rand cplx rest
  end.

Definition pffft_validate (K : ValKernel) (rand : Z -> nat -> Z) (cplx : bool) : V unit :=
  validate_sizes K rand cplx Ntest.

(** ** Timed code: the clock and the work buffers *)

(** [(int)x] for a [double] [x]: truncation toward zero, defined when the
    truncated value is an [int]. *)
Definition INT_MAX : Z := 2 ^ 31 - 1.
Definition INT_MIN : Z := - 2 ^ 31.

Definition trunc (x : double) : option Z :=
  match x with
  | S754_zero _ => Some 0
  | S754_finite s m e =>
      let a := Z.shiftl (Zpos m) e in
      Some (if s then - a else a)
  | _ => None
  end.

Definition double_to_int (x : double) : option Z :=
  match trunc x with
  | Some z => if (INT_MIN <=? z) && (z <=? INT_MAX) then Some z else None
  | None => None
  end.

(** Arithmetic on [int]: a result that no [int] represents is undefined
    behaviour. *)
Definition int_result (z : Z) : result Z :=
  if (INT_MIN <=? z) && (z <=? INT_MAX) then Returns z else Undefined.

(** Timed code reads the clock: [uclock_sec()] returns [clk n] at its
    [n]-th call of the run.  The state of a computation is the number of
    readings taken so far. *)
Definition B (A : Type) : Type := nat -> result (A * nat).

Definition bret {A} (a : A) : B A := fun n => Returns (a, n).

Definition bbind {A B'} (c : B A) (k : A -> B B') : B B' :=
  fun n =>
    match c n with
    | Returns (a, n') => k a n'
    | Exits code => Exits code
    | Aborts => Aborts
    | Undefined => Undefined
    | OutOfFuel => OutOfFuel
    end.

Definition lift {A} (r : result A) : B A :=
  fun n =>
    match r with
    | Returns a => Returns (a, n)
    | Exits code => Exits code
    | Aborts => Aborts
    | Undefined => Undefined
    | OutOfFuel => OutOfFuel
    end.

Definition uclock_sec (clk : nat -> double) : B double :=
  fun n => Returns (clk n, S n).

Declare Scope bench_scope.
Delimit Scope bench_scope with bench.
Notation "x <- c ;; k" := (bbind c (fun x => k))
  (at level 61, c at next level, right associativity) : bench_scope.
Notation "' pat <- c ;; k" := (bbind c (fun x => match x with pat => k end))
  (at level 61, pat pattern, c at next level, right associativity) : bench_scope.
Notation "c ;; k" := (bbind c (fun _ => k))
  (at level 61, right associativity) : bench_scope.

(** A [float*] buffer of the timed code, by the contents of its cells:
    [X k] is [X[k]].  The harness writes a few cells of it and reads one
    only, the guard; the cells it has not written hold what the memory
    held.  The buffers of the largest sizes have millions of cells, and
    nothing in the harness depends on their number. *)
Definition buffer : Type := Z -> float.

(** [X[k] = v;] *)
Definition store (X : buffer) (k : Z) (v : float) : buffer :=
  fun j => if j =? k then v else X j.

(** The three buffers [X], [Y], [Z] of [cal_benchmark] and
    [benchmark_ffts]. *)
Record bufs : Type := { Xbuf : buffer; Ybuf : buffer; Zbuf : buffer }.

(** A timed call of a kernel, by what it does to the buffers.  Nothing is
    assumed of it: it may write any cell, the guard cell included. *)
Definition call : Type := bufs -> bufs.

Definition checkVal : float := F32.of_Z 12345.

(** The statements of a loop body that matter: the guard
    [assert( X[Nmax] == checkVal )] and the calls of the kernels. *)
Inductive op : Type :=
| Check
| Call (f : call).

Definition run_op (Nmax : Z) (o : op) (b : bufs) : result bufs :=
  match o with
  | Check => if F32.eqb (Xbuf b Nmax) checkVal then Returns b else Aborts
  | Call f => Returns (f b)
  end.

Fixpoint run_ops (Nmax : Z) (ops : list op) (b : bufs) : result bufs :=
  match ops with
  | [] => Returns b
  | o :: ops' =>
      match run_op Nmax o b with
      | Returns b' => run_ops Nmax ops' b'
      | r => r
      end
  end.

(** [for ( k = 0; k < step; ++k ) { body; ++iter; }] *)
Fixpoint step_block (n : nat) (Nmax : Z) (body : list op) (b : bufs) (iter : Z)
    : result (bufs * Z) :=
  match n with
  | O => Returns (b, iter)
  | S n' =>
      match run_ops Nmax body b with
      | Returns b' => step_block n' Nmax body b' (iter + 1)
      | Exits code => Exits code
      | Aborts => Aborts
      | Undefined => Undefined
      | OutOfFuel => OutOfFuel
      end
  end.

(** [do { for (...) {...}  t1 = uclock_sec(); } while ( t1 < tstop );]
    The loop ends when the clock says so; [fuel] bounds the number of
    rounds the model follows.  Returns the buffers, the counter and the
    last reading [t1]. *)
Fixpoint timed_loop (fuel : nat) (clk : nat -> double) (Nmax : Z) (body : list op)
    (step : Z) (tstop : double) (b : bufs) (iter : Z) : B (bufs * Z * double) :=
  match fuel with
  | O => fun _ => OutOfFuel
  | S fuel' =>
      ('(b', iter') <- lift (step_block (Z.to_nat step) Nmax body b iter) ;;
       t1 <- uclock_sec clk ;;
       if F64.ltb t1 tstop
       then timed_loop fuel' clk Nmax body step tstop b' iter'
       else bret (b', iter', t1))%bench
  end.

(** ** The kernels as the timed code sees them *)

Inductive fftw_flags := FFTW_MEASURE | FFTW_ESTIMATE.

(** What [fftwf_plan_dft_1d], [fftwf_plan_dft_r2c_1d] and
    [fftwf_plan_dft_c2r_1d] were given. *)
Record fftw_plan : Type := {
  plan_n : Z;
  plan_cplx : bool;
  plan_dir : pffft_direction_t;
  plan_flags : fftw_flags
}.

Module BenchAPI.
Record t (K : ValKernel) : Type := {
  (* pffft.h *)
  pffft_next_power_of_two : Z -> Z;
  pffft_is_power_of_two : Z -> bool;
  pffft_simd_size : Z;
  pffft_transform : Setup K -> pffft_direction_t -> call;         (* (s, X, Z, Y, dir) *)
  pffft_transform_ordered : Setup K -> pffft_direction_t -> call; (* (s, X, Z, Y, dir) *)
  (* fftpack.h: (N, X, wrk) *)
  cfftf : Z -> call;
  cfftb : Z -> call;
  rfftf : Z -> call;
  rfftb : Z -> call;
  (* Accelerate: (setup, &zsamples, 1, log2NextN, direction) *)
  vDSP_fft_zip : Z -> pffft_direction_t -> call;
  vDSP_fft_zrip : Z -> pffft_direction_t -> call;
  (* fftw3.h *)
  fftwf_execute : fftw_plan -> call;
  (* fftext.h: (X, log2NextN, 1) *)
  ffts : Z -> call;
  iffts : Z -> call;
  rffts : Z -> call;
  riffts : Z -> call;
  (* kiss_fft.h: the size and the [inverse_fft] flag of the configuration;
     forward calls go from X to Y, inverse calls from Y to X *)
  kiss_fft : Z -> bool -> call;
  kiss_fftr : Z -> call;
  kiss_fftri : Z -> call;
  (* math.h *)
  log : double -> double
}.
Arguments pffft_next_power_of_two {K}.
Arguments pffft_is_power_of_two {K}.
Arguments pffft_simd_size {K}.
Arguments pffft_transform {K}.
Arguments pffft_transform_ordered {K}.
Arguments cfftf {K}.
Arguments cfftb {K}.
Arguments rfftf {K}.
Arguments rfftb {K}.
Arguments vDSP_fft_zip {K}.
Arguments vDSP_fft_zrip {K}.
Arguments fftwf_execute {K}.
Arguments ffts {K}.
Arguments iffts {K}.
Arguments rffts {K}.
Arguments riffts {K}.
Arguments kiss_fft {K}.
Arguments kiss_fftr {K}.
Arguments kiss_fftri {K}.
Arguments log {K}.
End BenchAPI.

(** The preprocessor symbols the file tests. *)
Record build : Type := {
  HAVE_VECLIB : bool;
  HAVE_FFTW : bool;
  HAVE_GREEN_FFTS : bool;
  HAVE_KISS_FFT : bool;
  PFFFT_SIMD_DISABLE : bool;
  ARM : bool       (* __arm__ || __aarch64__ || __arm64__ *)
}.

(** ** cal_benchmark *)

(** [for (k = 0; k < Nfloat; ++k) X[k] = sqrtf(k+1);] on a fresh buffer. *)
Definition cal_input (junk : float) (Nfloat : Z) : buffer :=
  fun k => if (0 <=? k) && (k <? Nfloat) then F32.sqrt (F32.of_Z (k + 1)) else junk.

(** The body of the probe loop: a forward and a backward transform, no
    guard. *)
Definition cal_body {K} (BK : BenchAPI.t K) (s : Setup K) : list op :=
  [Call (BenchAPI.pffft_transform BK s PFFFT_FORWARD);
   Call (BenchAPI.pffft_transform BK s PFFFT_BACKWARD)].

(** The buffers the loop of the probe starts from; [junk] stands for the
    contents of freshly allocated memory. *)
Definition cal_start (junk : float) (Nfloat : Z) : bufs :=
  {| Xbuf := cal_input junk Nfloat; Ybuf := fun _ => junk; Zbuf := fun _ => junk |}.

(** [cal_benchmark] to the end of its loop: the buffers, the counter
    [iter] and the readings [t0] and [t1].  [++iter] is undefined once
    [iter] is [INT_MAX]; the counter starts at [0] and only grows, so that
    happens exactly when the count of the loop is above [INT_MAX]. *)
Definition cal_loop {K} (BK : BenchAPI.t K) (clk : nat -> double) (fuel : nat)
    (junk : float) (N : Z) (cplx : bool) : B (bufs * Z * double * double) :=
  (Nfloat <- lift (if cplx then int_result (N * 2) else Returns N) ;;
   lift (if BenchAPI.pffft_is_power_of_two BK N then Returns tt else Aborts) ;;
   match pffft_new_setup K N (kind_of cplx) with
   | None => lift Aborts                                  (* assert(s) *)
   | Some s =>
       t0 <- uclock_sec clk ;;
       let tstop := F64.add t0 (F64.lit 1 4) in           (* 250 ms *)
       '(b, iter, t1) <- timed_loop fuel clk 0 (cal_body BK s) 512 tstop
                           (cal_start junk Nfloat) 0 ;;
       iter <- lift (int_result iter) ;;
       bret (b, iter, t0, t1)
   end)%bench.

(** The function: [T = t1 - t0], [nI = ((double)iter) * ( log2N * N )]
    with the product of two [int]s, and [nI / T]. *)
Definition cal_benchmark {K} (BK : BenchAPI.t K) (clk : nat -> double) (fuel : nat)
    (junk : float) (N : Z) (cplx : bool) : B double :=
  (let log2N := Log2 N in
   '(_, iter, t0, t1) <- cal_loop BK clk fuel junk N cplx ;;
   w <- lift (int_result (log2N * N)) ;;
   let T := F64.sub t1 t0 in
   let nI := F64.mul (F64.of_Z iter) (F64.of_Z w) in
   bret (F64.div nI T))%bench.

(** ** The measurement table *)

Inductive algo : Type :=
| ALGO_FFTPACK | ALGO_VECLIB | ALGO_FFTW_ESTIM | ALGO_FFTW_AUTO
| ALGO_GREEN | ALGO_KISS | ALGO_PFFFT_U | ALGO_PFFFT_O.

Inductive mtype : Type :=
| TYPE_PREP          (* time for preparation in ms *)
| TYPE_DUR_NS        (* time per fft in ns *)
| TYPE_DUR_FASTEST   (* relative time to fastest *)
| TYPE_REL_PFFFT     (* relative time to ALGO_PFFFT *)
| TYPE_ITER          (* # of iterations in measurement *)
| TYPE_MFLOPS        (* MFlops/sec *)
| TYPE_DUR_TOT.      (* test duration in sec *)

Definition algo_eq_dec (a b : algo) : {a = b} + {a <> b}.
Proof. decide equality. Defined.

Definition mtype_eq_dec (a b : mtype) : {a = b} + {a <> b}.
Proof. decide equality. Defined.

(** The indices [0 .. NUM_FFT_ALGOS-1] and [0 .. NUM_TYPES-1], in order. *)
Definition all_algos : list algo :=
  [ALGO_FFTPACK; ALGO_VECLIB; ALGO_FFTW_ESTIM; ALGO_FFTW_AUTO;
   ALGO_GREEN; ALGO_KISS; ALGO_PFFFT_U; ALGO_PFFFT_O].

Definition all_types : list mtype :=
  [TYPE_PREP; TYPE_DUR_NS; TYPE_DUR_FASTEST; TYPE_REL_PFFFT; TYPE_ITER;
   TYPE_MFLOPS; TYPE_DUR_TOT].

Definition compiledInAlgo (cfg : build) (a : algo) : bool :=
  match a with
  | ALGO_FFTPACK => true
  | ALGO_VECLIB => HAVE_VECLIB cfg
  | ALGO_FFTW_ESTIM => HAVE_FFTW cfg
  | ALGO_FFTW_AUTO => HAVE_FFTW cfg
  | ALGO_GREEN => HAVE_GREEN_FFTS cfg
  | ALGO_KISS => HAVE_KISS_FFT cfg
  | ALGO_PFFFT_U => true
  | ALGO_PFFFT_O => true
  end.

(** [double tmeas[NUM_TYPES][NUM_FFT_ALGOS]] and [int haveAlgo[NUM_FFT_ALGOS]]. *)
Definition table : Type := mtype -> algo -> double.
Definition have_t : Type := algo -> bool.

Definition tset (t : table) (k : mtype) (a : algo) (v : double) : table :=
  fun k' a' =>
    if mtype_eq_dec k' k then if algo_eq_dec a' a then v else t k' a' else t k' a'.

Definition fset (h : have_t) (a : algo) (v : bool) : have_t :=
  fun a' => if algo_eq_dec a' a then v else h a'.

(** [for k < NUM_TYPES: for iter < NUM_FFT_ALGOS: tmeas[k][iter] = 0.0;] *)
Definition tmeas_cleared : table := fun _ _ => F64.zero.

(** ** benchmark_ffts *)

Definition max_test_duration : double := F64.lit 150 1000.   (* 0.150 *)
Definition M_LN2 : double :=
  F64.lit 69314718055994530942 100000000000000000000.

(** [max_test_duration * iterCal / ( log2N * N )], for a duration [budget]. *)
Definition numIter_of (budget iterCal : double) (N : Z) : double :=
  F64.div (F64.mul budget iterCal) (F64.of_Z (Log2 N * N)).

(** [MAX(1, ((int)(0.01 * numIter)) )] and [MAX(1, ((int)numIter) )]. *)
Definition step_iter_of (numIter : double) : option Z :=
  option_map (MAX 1) (double_to_int (F64.mul (F64.lit 1 100) numIter)).

Definition max_iter_of (numIter : double) : option Z :=
  option_map (MAX 1) (double_to_int numIter).

(** The indices [0, stride, 2*stride, ...] below [n]. *)
Definition strided (n stride : Z) : list Z :=
  map (fun i => Z.of_nat i * stride) (seq 0 (Z.to_nat ((n + stride - 1) / stride))).

(** [memset( X, 0, Nfloat * sizeof(float) )] and the loop that follows;
    [X] has one more cell than [Nfloat]. *)
Definition bench_input (junk : float) (Nfloat : Z) : buffer :=
  let X0 : buffer := fun k => if (0 <=? k) && (k <? Nfloat) then F32.zero else junk in
  let stride := if Nfloat <? 32 then 4 else Nfloat / 16 in
  fold_left (fun X k => store X k (F32.sqrt (F32.of_Z (k + 1))))
            (strided Nfloat stride) X0.

Record bstate : Type := { buf : bufs; tmeas : table; haveAlgo : have_t }.

(** [X[Nmax] = checkVal;] *)
Definition set_guard (Nmax : Z) (st : bstate) : bstate :=
  {| buf := {| Xbuf := store (Xbuf (buf st)) Nmax checkVal;
               Ybuf := Ybuf (buf st); Zbuf := Zbuf (buf st) |};
     tmeas := tmeas st; haveAlgo := haveAlgo st |}.

(** [(max_iter*2) * ((cplx ? 5 : 2.5)*N*log((double)N)/M_LN2)] *)
Definition flops_of {K} (BK : BenchAPI.t K) (N : Z) (cplx : bool) (max_iter : Z) : double :=
  F64.mul (F64.of_Z (max_iter * 2))
    (F64.div
       (F64.mul (F64.mul (if cplx then F64.of_Z 5 else F64.lit 5 2) (F64.of_Z N))
                (BenchAPI.log BK (F64.of_Z N)))
       M_LN2).

(** The value [show_output] returns, [(double)(t1-t0)/2/max_iter * 1e9]
    on its [float] parameters [t0], [t1]; what it prints is not
    modelled. *)
Definition show_output (t0 t1 : float) (max_iter : Z) : double :=
  F64.mul
    (F64.div (F64.div (f2d (F32.sub t1 t0)) (F64.of_Z 2)) (F64.of_Z max_iter))
    (F64.of_Z (10 ^ 9)).

(** The assignments after a timed loop. *)
Definition record_measure {K} (BK : BenchAPI.t K) (a : algo) (N : Z) (cplx : bool)
    (te t0 t1 : double) (max_iter : Z) (st : bstate) (b : bufs) : bstate :=
  let flops := flops_of BK N cplx max_iter in
  let tm := tmeas st in
  let tm := tset tm TYPE_ITER a (F64.of_Z max_iter) in
  let tm := tset tm TYPE_MFLOPS a
              (F64.div (F64.div flops (F64.of_Z (10 ^ 6)))
                       (F64.add (F64.sub t1 t0) (F64.lit 1 (10 ^ 16)))) in
  let tm := tset tm TYPE_DUR_TOT a (F64.sub t1 t0) in
  let tm := tset tm TYPE_DUR_NS a (show_output (d2f t0) (d2f t1) max_iter) in
  let tm := tset tm TYPE_PREP a (F64.mul (F64.sub t0 te) (F64.of_Z (10 ^ 3))) in
  {| buf := b; tmeas := tm; haveAlgo := fset (haveAlgo st) a true |}.

(** From [t0 = uclock_sec()] to [haveAlgo[a] = 1]: the shape shared by
    the eight measurements. *)
Definition measure {K} (BK : BenchAPI.t K) (clk : nat -> double) (fuel : nat)
    (a : algo) (N : Z) (cplx : bool) (Nmax : Z) (body : list op) (step_iter : Z)
    (te : double) (st : bstate) : B bstate :=
  (t0 <- uclock_sec clk ;;
   let tstop := F64.add t0 max_test_duration in
   '(b, max_iter, t1) <- timed_loop fuel clk Nmax body step_iter tstop (buf st) 0 ;;
   bret (record_measure BK a N cplx te t0 t1 max_iter st b))%bench.

(** The loop bodies, as written in the source. *)
Section Bodies.
Context {K : ValKernel} (BK : BenchAPI.t K).

Definition fftpack_body (N : Z) (cplx : bool) : list op :=
  if cplx then
    [Check; Call (BenchAPI.cfftf BK N); Check; Call (BenchAPI.cfftb BK N); Check]
  else
    [Check; Call (BenchAPI.rfftf BK N); Check; Call (BenchAPI.rfftb BK N); Check].

Definition veclib_body (log2NextN : Z) (cplx : bool) : list op :=
  if cplx then
    [Check; Call (BenchAPI.vDSP_fft_zip BK log2NextN PFFFT_FORWARD); Check;
     Call (BenchAPI.vDSP_fft_zip BK log2NextN PFFFT_BACKWARD); Check]
  else
    [Check; Call (BenchAPI.vDSP_fft_zrip BK log2NextN PFFFT_FORWARD); Check;
     Call (BenchAPI.vDSP_fft_zrip BK log2NextN PFFFT_BACKWARD); Check].

Definition fftw_body (N : Z) (cplx : bool) (fl : fftw_flags) : list op :=
  let planf := {| plan_n := N; plan_cplx := cplx; plan_dir := PFFFT_FORWARD;
                  plan_flags := fl |} in
  let planb := {| plan_n := N; plan_cplx := cplx; plan_dir := PFFFT_BACKWARD;
                  plan_flags := fl |} in
  [Check; Call (BenchAPI.fftwf_execute BK planf); Check;
   Call (BenchAPI.fftwf_execute BK planb); Check].

Definition green_body (log2NextN : Z) (cplx : bool) : list op :=
  if cplx then
    [Check; Call (BenchAPI.ffts BK log2NextN); Check;
     Call (BenchAPI.iffts BK log2NextN); Check]
  else
    [Call (BenchAPI.rffts BK log2NextN); Call (BenchAPI.riffts BK log2NextN)].

Definition kiss_body (nextPow2N : Z) (cplx : bool) : list op :=
  if cplx then
    [Check; Call (BenchAPI.kiss_fft BK nextPow2N false); Check;
     Call (BenchAPI.kiss_fft BK nextPow2N true); Check]
  else
    [Check; Call (BenchAPI.kiss_fftr BK nextPow2N); Check;
     Call (BenchAPI.kiss_fftri BK nextPow2N); Check].

Definition pffft_u_body (s : Setup K) : list op :=
  [Check; Call (BenchAPI.pffft_transform BK s PFFFT_FORWARD); Check;
   Call (BenchAPI.pffft_transform BK s PFFFT_BACKWARD); Check].

Definition pffft_o_body (s : Setup K) : list op :=
  [Check; Call (BenchAPI.pffft_transform_ordered BK s PFFFT_FORWARD); Check;
   Call (BenchAPI.pffft_transform_ordered BK s PFFFT_BACKWARD); Check].
End Bodies.

Section BenchmarkFfts.
Context {K : ValKernel} (BK : BenchAPI.t K).
Variable cfg : build.
Variable clk : nat -> double.
Variable fuel : nat.
Variable junk : float.
Variables (N : Z) (cplx : bool) (withFFTWfullMeas : bool) (iterCal : double).

Definition nextPow2N_of : Z := BenchAPI.pffft_next_power_of_two BK N.

Definition pffftPow2N_of : Z :=
  if PFFFT_SIMD_DISABLE cfg then N
  else if cplx then MAX N 16 else MAX N 32.

Definition bench_Nfloat : Z :=
  if cplx then MAX nextPow2N_of pffftPow2N_of * 2 else MAX nextPow2N_of pffftPow2N_of.

(** [Nmax = (cplx ? n*2 : n)] *)
Definition Nmax_of (n : Z) : Z := if cplx then n * 2 else n.

(** FFTPack benchmark *)
Definition bench_fftpack (step_iter : Z) (st : bstate) : B bstate :=
  (let Nmax := Nmax_of N in
   let st := set_guard Nmax st in
   te <- uclock_sec clk ;;
   measure BK clk fuel ALGO_FFTPACK N cplx Nmax (fftpack_body BK N cplx) step_iter te st)%bench.

(** [#ifdef HAVE_VECLIB]; the test [1 || pffft_is_power_of_two(N)] is
    always true. *)
Definition bench_veclib (step_iter : Z) (st : bstate) : B bstate :=
  (let Nmax := Nmax_of nextPow2N_of in
   let st := set_guard Nmax st in
   te <- uclock_sec clk ;;
   measure BK clk fuel ALGO_VECLIB N cplx Nmax
     (veclib_body BK (Log2 nextPow2N_of) cplx) step_iter te st)%bench.

(** [#ifdef HAVE_FFTW], first block: [flags = FFTW_ESTIMATE]. *)
Definition bench_fftw_estim (step_iter : Z) (st : bstate) : B bstate :=
  (let Nmax := Nmax_of N in
   let st := set_guard Nmax st in
   te <- uclock_sec clk ;;
   measure BK clk fuel ALGO_FFTW_ESTIM N cplx Nmax
     (fftw_body BK N cplx FFTW_ESTIMATE) step_iter te st)%bench.

(** [#ifdef HAVE_FFTW], second block. *)
Definition fftw_auto_flags : fftw_flags :=
  let limitFFTsize := if ARM cfg then 31 else 2400 in
  if N <? limitFFTsize then FFTW_MEASURE
  else if withFFTWfullMeas then FFTW_MEASURE else FFTW_ESTIMATE.

Definition bench_fftw_auto (step_iter : Z) (st : bstate) : B bstate :=
  (let Nmax := Nmax_of N in
   let st := set_guard Nmax st in
   match fftw_auto_flags with
   | FFTW_ESTIMATE =>
       (* copy values from estimation *)
       let tm := tmeas st in
       let tm := tset tm TYPE_ITER ALGO_FFTW_AUTO (tm TYPE_ITER ALGO_FFTW_ESTIM) in
       let tm := tset tm TYPE_DUR_TOT ALGO_FFTW_AUTO (tm TYPE_DUR_TOT ALGO_FFTW_ESTIM) in
       let tm := tset tm TYPE_DUR_NS ALGO_FFTW_AUTO (tm TYPE_DUR_NS ALGO_FFTW_ESTIM) in
       let tm := tset tm TYPE_PREP ALGO_FFTW_AUTO (tm TYPE_PREP ALGO_FFTW_ESTIM) in
       bret {| buf := buf st; tmeas := tm; haveAlgo := haveAlgo st |}
   | FFTW_MEASURE =>
       te <- uclock_sec clk ;;
       measure BK clk fuel ALGO_FFTW_AUTO N cplx Nmax
         (fftw_body BK N cplx FFTW_MEASURE) step_iter te st
   end)%bench.

(** [#ifdef HAVE_GREEN_FFTS] *)
Definition bench_green (step_iter : Z) (st : bstate) : B bstate :=
  (let Nmax := Nmax_of nextPow2N_of in
   let st := set_guard Nmax st in
   te <- uclock_sec clk ;;
   measure BK clk fuel ALGO_GREEN N cplx Nmax
     (green_body BK (Log2 nextPow2N_of) cplx) step_iter te st)%bench.

(** [#ifdef HAVE_KISS_FFT] *)
Definition bench_kiss (step_iter : Z) (st : bstate) : B bstate :=
  (let Nmax := Nmax_of nextPow2N_of in
   let st := set_guard Nmax st in
   te <- uclock_sec clk ;;
   measure BK clk fuel ALGO_KISS N cplx Nmax
     (kiss_body BK nextPow2N_of cplx) step_iter te st)%bench.

(** PFFFT-U (unordered) benchmark: nothing is measured or recorded when
    [pffft_new_setup] returns [NULL]. *)
Definition bench_pffft_u (step_iter : Z) (st : bstate) : B bstate :=
  (let Nmax := Nmax_of pffftPow2N_of in
   let st := set_guard Nmax st in
   te <- uclock_sec clk ;;
   match pffft_new_setup K pffftPow2N_of (kind_of cplx) with
   | Some s =>
       measure BK clk fuel ALGO_PFFFT_U N cplx Nmax (pffft_u_body BK s) step_iter te st
   | None => bret st
   end)%bench.

(** PFFFT (ordered) benchmark, with the guard of the previous block. *)
Definition bench_pffft_o (step_iter : Z) (st : bstate) : B bstate :=
  (let Nmax := Nmax_of pffftPow2N_of in
   te <- uclock_sec clk ;;
   match pffft_new_setup K pffftPow2N_of (kind_of cplx) with
   | Some s =>
       measure BK clk fuel ALGO_PFFFT_O N cplx Nmax (pffft_o_body BK s) step_iter te st
   | None => bret st
   end)%bench.

(** Lines 869-874: the smallest non-zero [tmeas[TYPE_DUR_NS][iter]]. *)
Definition Tfastest_of (tm : table) : double :=
  fold_left
    (fun Tfastest a =>
       if F64.eqb Tfastest F64.zero
          || (negb (F64.eqb (tm TYPE_DUR_NS a) F64.zero)
              && F64.ltb (tm TYPE_DUR_NS a) Tfastest)
       then tm TYPE_DUR_NS a else Tfastest)
    all_algos F64.zero.

(** [haveAlgo[iter] && tmeas[TYPE_DUR_NS][iter] > 0.0] *)
Definition measured (h : have_t) (tm : table) (a : algo) : bool :=
  h a && F64.gtb (tm TYPE_DUR_NS a) F64.zero.

(** Lines 875-904: the two relative columns. *)
Definition relative_fastest (h : have_t) (tm : table) : table :=
  let Tfastest := Tfastest_of tm in
  if F64.gtb Tfastest F64.zero then
    fold_left
      (fun tm a =>
         if measured h tm a
         then tset tm TYPE_DUR_FASTEST a (F64.div (tm TYPE_DUR_NS a) Tfastest)
         else tm)
      all_algos tm
  else tm.

Definition relative_pffft (h : have_t) (tm : table) : table :=
  fold_left
    (fun tm a =>
       if measured h tm a
       then tset tm TYPE_REL_PFFFT a
              (F64.div (tm TYPE_DUR_NS a) (tm TYPE_DUR_NS ALGO_PFFFT_O))
       else tm)
    all_algos tm.

(** A block under [#ifdef]. *)
Definition when (flag : bool) (f : bstate -> B bstate) (st : bstate) : B bstate :=
  if flag then f st else bret st.

(** The function: the new contents of [tmeas] and of [haveAlgo]. *)
Definition benchmark_ffts (haveAlgo0 : have_t) : B (table * have_t) :=
  (let Nfloat := bench_Nfloat in
   let numIter := numIter_of max_test_duration iterCal N in
   match step_iter_of numIter, max_iter_of numIter with
   | Some step_iter, Some _ =>
       let b := {| Xbuf := bench_input junk Nfloat;
                   Ybuf := fun _ => junk;
                   Zbuf := fun _ => junk |} in
       let st := {| buf := b; tmeas := tmeas_cleared; haveAlgo := haveAlgo0 |} in
       st <- bench_fftpack step_iter st ;;
       st <- when (HAVE_VECLIB cfg) (bench_veclib step_iter) st ;;
       st <- when (HAVE_FFTW cfg) (bench_fftw_estim step_iter) st ;;
       st <- when (HAVE_FFTW cfg) (bench_fftw_auto step_iter) st ;;
       st <- when (HAVE_GREEN_FFTS cfg) (bench_green step_iter) st ;;
       st <- when (HAVE_KISS_FFT cfg) (bench_kiss step_iter) st ;;
       st <- bench_pffft_u step_iter st ;;
       st <- bench_pffft_o step_iter st ;;
       let tm := relative_fastest (haveAlgo st) (tmeas st) in
       let tm := relative_pffft (haveAlgo st) tm in
       bret (tm, haveAlgo st)
   | _, _ => lift Undefined
   end)%bench.
End BenchmarkFfts.

(** ** main *)

(** What the command line selects; parsing it is not modelled. *)
Record options : Type := {
  array_output_format : bool;   (* --array-format, --table / --no-tab *)
  benchReal : bool;             (* cleared by --cplx *)
  benchCplx : bool;             (* cleared by --real *)
  opt_withFFTWfullMeas : bool;  (* --fftw-full-measure *)
  usePow2 : bool                (* cleared by --non-pow2 *)
}.

(** [Npow2[k-1] = (1 << k)] for [k = 1 .. 20], then the end mark [-1]. *)
Definition Npow2 : list Z := map (fun k => Z.shiftl 1 (Z.of_nat k)) (seq 1 20).

Definition NnonPow2 : list Z :=
  [96; 160; 192; 384; 5*96; 5*128; 3*256; 800; 2400; 9*1024].

Definition Nvalues (o : options) : list Z := if usePow2 o then Npow2 else NnonPow2.

(** A filled slot [tmeas[realCplxIdx][i]] of [main]: the size, the domain
    and the table [benchmark_ffts] wrote. *)
Definition row : Type := (Z * bool * table)%type.

Section Main.
Context {K : ValKernel} (BK : BenchAPI.t K).
Variable cfg : build.
Variable o : options.
Variable rand : bool -> Z -> nat -> Z.
Variable clk : nat -> double.
Variable fuel : nat.
Variable junk : float.

Definition bench_one (iterCal : double) (N : Z) (cplx : bool) (acc : list row * have_t)
    : B (list row * have_t) :=
  ('(tm, h) <- benchmark_ffts BK cfg clk fuel junk N cplx (opt_withFFTWfullMeas o)
                 iterCal (snd acc) ;;
   bret (fst acc ++ [(N, cplx, tm)], h))%bench.

(** [for (i=0; Nvalues[i] > 0; ++i) benchmark_ffts(Nvalues[i], cplx, ...);] *)
Fixpoint bench_domain (iterCal : double) (cplx : bool) (sizes : list Z)
    (acc : list row * have_t) : B (list row * have_t) :=
  match sizes with
  | [] => bret acc
  | n :: rest =>
      (acc <- bench_one iterCal n cplx acc ;;
       bench_domain iterCal cplx rest acc)%bench
  end.

(** The loop of the table format (lines 1076-1092): both domains for each
    size, between two readings of the clock.  The test on
    [smallestRealN] and [smallestCplxN] in front of its body is commented
    out in the source. *)
Fixpoint bench_table (iterCalReal iterCalCplx : double) (sizes : list Z)
    (acc : list row * have_t) : B (list row * have_t) :=
  match sizes with
  | [] => bret acc
  | n :: rest =>
      (_ <- uclock_sec clk ;;
       acc <- (if benchReal o then bench_one iterCalReal n false acc else bret acc) ;;
       acc <- (if benchCplx o then bench_one iterCalCplx n true acc else bret acc) ;;
       _ <- uclock_sec clk ;;
       bench_table iterCalReal iterCalCplx rest acc)%bench
  end.

(** From "calibrating fft benchmark duration" to the end of the
    measurements.  A calibration factor that is not computed is not used
    either; [F64.zero] stands for the uninitialised variable. *)
Definition timed_part : B (list row * have_t) :=
  (let acc := ([], fun _ : algo => false) in
   _ <- uclock_sec clk ;;
   iterCalReal <- (if benchReal o then cal_benchmark BK clk fuel junk 512 false
                   else bret F64.zero) ;;
   iterCalCplx <- (if benchCplx o then cal_benchmark BK clk fuel junk 512 true
                   else bret F64.zero) ;;
   _ <- uclock_sec clk ;;
   if array_output_format o then
     bench_table iterCalReal iterCalCplx (Nvalues o) acc
   else
     acc <- (if benchReal o then bench_domain iterCalReal false (Nvalues o) acc
             else bret acc) ;;
     (if benchCplx o then bench_domain iterCalCplx true (Nvalues o) acc
      else bret acc))%bench.

(** [main]: the validation of both domains, then the timed part.  The
    result holds what the validation printed and, when the run reaches
    its end, the rows measured and the final [haveAlgo]. *)
Definition main : list msg * result (list row * have_t) :=
  match (pffft_validate K (rand true) true ;; pffft_validate K (rand false) false)%harness with
  | (out, Returns _) =>
      (out, match timed_part 0%nat with
            | Returns (r, _) => Returns r
            | Exits code => Exits code
            | Aborts => Aborts
            | Undefined => Undefined
            | OutOfFuel => OutOfFuel
            end)
  | (out, Exits code) => (out, Exits code)
  | (out, Aborts) => (out, Aborts)
  | (out, Undefined) => (out, Undefined)
  | (out, OutOfFuel) => (out, OutOfFuel)
  end.
End Main.

(** ** Concrete kernels and clocks

    The examples below run the harness on small stand-ins for the
    kernels.  [toy_kernel] passes the validation; the others differ from
    it in one entry point each. *)

(** [ab[k] += a[k] * b[k] * scaling] on interleaved complex numbers; in
    the real domain the first two cells are two real numbers. *)
Fixpoint toy_convolve (first_real : bool) (a b ab : list float) (scaling : float)
    : list float :=
  match a, b, ab with
  | ar :: ai :: a', br :: bi :: b', cr :: ci :: ab' =>
      (if first_real then
         [F32.add cr (F32.mul (F32.mul ar br) scaling);
          F32.add ci (F32.mul (F32.mul ai bi) scaling)]
       else
         [F32.add cr (F32.mul (F32.sub (F32.mul ar br) (F32.mul ai bi)) scaling);
          F32.add ci (F32.mul (F32.add (F32.mul ar bi) (F32.mul ai br)) scaling)])
      ++ toy_convolve false a' b' ab' scaling
  | _, _, _ => ab
  end.

Definition is_real (t : pffft_transform_t) : bool :=
  match t with PFFFT_REAL => true | PFFFT_COMPLEX => false end.

(** A stand-in that passes the validation: the forward transforms and
    the reorderings are the identity, the backward transforms multiply by
    [N]; a setup exists for the sizes [supported] accepts and remembers
    the size and the domain. *)
Definition toy_transform (st : Z * pffft_transform_t) (x : list float)
    (d : pffft_direction_t) : list float :=
  match d with
  | PFFFT_FORWARD => x
  | PFFFT_BACKWARD => map (fun v => F32.mul v (F32.of_Z (fst st))) x
  end.

Definition toy_kernel (supported : Z -> bool) : ValKernel := {|
  Setup := (Z * pffft_transform_t)%type;
  pffft_new_setup := fun N t => if supported N then Some (N, t) else None;
  pffft_transform := fun st x _ d => toy_transform st x d;
  pffft_transform_ordered := fun st x _ d => toy_transform st x d;
  pffft_zreorder := fun _ x _ => x;
  pffft_zconvolve_accumulate :=
    fun st a b ab scaling => toy_convolve (is_real (snd st)) a b ab scaling;
  rfftf := fun _ x => x;
  cfftf := fun _ x => x;
  RAND_MAX := 2147483647
|}.

(** The same, with a backward transform that returns zeros. *)
Definition broken_inverse_kernel : ValKernel := {|
  Setup := pffft_transform_t;
  pffft_new_setup := fun N t => Some t;
  pffft_transform := fun _ x _ d =>
    match d with PFFFT_FORWARD => x | PFFFT_BACKWARD => map (fun _ => F32.zero) x end;
  pffft_transform_ordered := fun _ x _ d =>
    match d with PFFFT_FORWARD => x | PFFFT_BACKWARD => map (fun _ => F32.zero) x end;
  pffft_zreorder := fun _ x _ => x;
  pffft_zconvolve_accumulate := fun t a b ab scaling => toy_convolve (is_real t) a b ab scaling;
  rfftf := fun _ x => x;
  cfftf := fun _ x => x;
  RAND_MAX := 2147483647
|}.

(** [rand()] returning [RAND_MAX] every time: all the inputs are [1]. *)
Definition toy_rand (k : nat) : Z := 2147483647.
Definition toy_rand_all (N : Z) (k : nat) : Z := toy_rand k.

Definition ident_call : call := fun b => b.

(** A call that writes [0] into cell [k] of [X]. *)
Definition clobber_X (k : Z) : call :=
  fun b => {| Xbuf := store (Xbuf b) k F32.zero; Ybuf := Ybuf b; Zbuf := Zbuf b |}.

(** Timed kernels that leave the buffers alone, except [rffts], which is
    [rffts_call]. *)
Definition toy_bench (K : ValKernel) (rffts_call : Z -> call) : BenchAPI.t K := {|
  BenchAPI.pffft_next_power_of_two := fun n => 2 ^ Z.log2_up n;
  BenchAPI.pffft_is_power_of_two := fun n => n =? 2 ^ Z.log2 n;
  BenchAPI.pffft_simd_size := 4;
  BenchAPI.pffft_transform := fun _ _ => ident_call;
  BenchAPI.pffft_transform_ordered := fun _ _ => ident_call;
  BenchAPI.cfftf := fun _ => ident_call;
  BenchAPI.cfftb := fun _ => ident_call;
  BenchAPI.rfftf := fun _ => ident_call;
  BenchAPI.rfftb := fun _ => ident_call;
  BenchAPI.vDSP_fft_zip := fun _ _ => ident_call;
  BenchAPI.vDSP_fft_zrip := fun _ _ => ident_call;
  BenchAPI.fftwf_execute := fun _ => ident_call;
  BenchAPI.ffts := fun _ => ident_call;
  BenchAPI.iffts := fun _ => ident_call;
  BenchAPI.rffts := rffts_call;
  BenchAPI.riffts := fun _ => ident_call;
  BenchAPI.kiss_fft := fun _ _ => ident_call;
  BenchAPI.kiss_fftr := fun _ => ident_call;
  BenchAPI.kiss_fftri := fun _ => ident_call;
  BenchAPI.log := fun x => x
|}.

(** A clock that advances by one second at every reading. *)
Definition second_clock (n : nat) : double := F64.of_Z (Z.of_nat n).

(** The default build on Linux: FFTPACK and PFFFT only; and a build with
    the Green FFTs. *)
Definition plain_build : build := {|
  HAVE_VECLIB := false; HAVE_FFTW := false; HAVE_GREEN_FFTS := false;
  HAVE_KISS_FFT := false; PFFFT_SIMD_DISABLE := false; ARM := false |}.

Definition green_build : build := {|
  HAVE_VECLIB := false; HAVE_FFTW := false; HAVE_GREEN_FFTS := true;
  HAVE_KISS_FFT := false; PFFFT_SIMD_DISABLE := false; ARM := false |}.

(** The row of [(N, cplx)] among the rows of a run. *)
Fixpoint lookup_row (N : Z) (cplx : bool) (rows : list row) : option table :=
  match rows with
  | [] => None
  | (N', cplx', tm) :: rest =>
      if (N' =? N) && Bool.eqb cplx' cplx then Some tm else lookup_row N cplx rest
  end.

(** The fields of a cell, in the order of [all_types]. *)
Definition cell (tm : table) (a : algo) : list double := map (fun k => tm k a) all_types.

(** The default command line, and [--non-pow2]. *)
Definition default_options : options := {|
  array_output_format := true; benchReal := true; benchCplx := true;
  opt_withFFTWfullMeas := false; usePow2 := true |}.

Definition non_pow2_options : options := {|
  array_output_format := true; benchReal := true; benchCplx := true;
  opt_withFFTWfullMeas := false; usePow2 := false |}.

(** Three PFFFT stand-ins, by the sizes they have a plan for, and the
    timed kernels that go with them. *)
Definition kernel_512 : ValKernel := toy_kernel (fun n => n =? 512).
Definition kernel_96_512 : ValKernel := toy_kernel (fun n => (n =? 512) || (n =? 96)).
Definition kernel_32_512 : ValKernel := toy_kernel (fun n => (n =? 32) || (n =? 512)).
Definition kernel_all : ValKernel := toy_kernel (fun _ => true).

Definition bench_512 : BenchAPI.t kernel_512 := toy_bench kernel_512 (fun _ => ident_call).
Definition bench_96_512 : BenchAPI.t kernel_96_512 :=
  toy_bench kernel_96_512 (fun _ => ident_call).
Definition bench_32_512 : BenchAPI.t kernel_32_512 :=
  toy_bench kernel_32_512 (fun _ => ident_call).
Definition bench_all : BenchAPI.t kernel_all := toy_bench kernel_all (fun _ => ident_call).

(** The runs of [main] the examples look at. *)
Abbreviation non_pow2_run :=
  (main bench_96_512 plain_build non_pow2_options (fun _ => toy_rand_all) second_clock 2
        F32.zero).

Abbreviation default_run :=
  (main bench_32_512 plain_build default_options (fun _ => toy_rand_all) second_clock 2
        F32.zero).

(** ** Notions used in the statements *)

(** The floor of a finite double, [None] for infinities and NaN. *)
Definition floor_double (x : double) : option Z :=
  match x with
  | S754_zero _ => Some 0
  | S754_finite s m e => Some (Z.shiftl (if s then Zneg m else Zpos m) e)
  | _ => None
  end.


(** A body made of calls only never stops the process. *)
Definition calls_only (body : list op) : Prop :=
  Forall (fun o => o <> Check) body.

(** The two ways the validation stops the process. *)
Definition stops {A} (r : result A) : Prop := r = Exits 1 \/ r = Aborts.

Definition returns_or_stops {A} (r : result A) : Prop :=
  (exists a, r = Returns a) \/ stops r.



(** Every call is followed at once by a check of the guard. *)
Fixpoint guarded (body : list op) : bool :=
  match body with
  | [] => true
  | Check :: rest => guarded rest
  | Call _ :: rest =>
      match rest with
      | Check :: _ => guarded rest
      | _ => false
      end
  end.

(** Column [a] of the table and entry [a] of [haveAlgo] are the same in
    two states. *)
Definition same_col (a : algo) (st st' : bstate) : Prop :=
  (forall k, tmeas st' k a = tmeas st k a) /\ haveAlgo st' a = haveAlgo st a.

Section Blocks.
Context {K : ValKernel} (BK : BenchAPI.t K).
Variable cfg : build.
Variable clk : nat -> double.
Variable fuel : nat.
Variable junk : float.
Variables (N : Z) (cplx : bool) (withFFTWfullMeas : bool).

(** The block of [benchmark_ffts] that measures algorithm [X]. *)
Definition section_of (X : algo) (step_iter : Z) : bstate -> B bstate :=
  match X with
  | ALGO_FFTPACK => bench_fftpack BK clk fuel N cplx step_iter
  | ALGO_VECLIB => when (HAVE_VECLIB cfg) (bench_veclib BK clk fuel N cplx step_iter)
  | ALGO_FFTW_ESTIM => when (HAVE_FFTW cfg) (bench_fftw_estim BK clk fuel N cplx step_iter)
  | ALGO_FFTW_AUTO =>
      when (HAVE_FFTW cfg) (bench_fftw_auto BK cfg clk fuel N cplx withFFTWfullMeas step_iter)
  | ALGO_GREEN => when (HAVE_GREEN_FFTS cfg) (bench_green BK clk fuel N cplx step_iter)
  | ALGO_KISS => when (HAVE_KISS_FFT cfg) (bench_kiss BK clk fuel N cplx step_iter)
  | ALGO_PFFFT_U => bench_pffft_u BK cfg clk fuel N cplx step_iter
  | ALGO_PFFFT_O => bench_pffft_o BK cfg clk fuel N cplx step_iter
  end.

Fixpoint run_sections (l : list algo) (step_iter : Z) (st : bstate) : B bstate :=
  match l with
  | [] => bret st
  | X :: rest => bbind (section_of X step_iter st) (run_sections rest step_iter)
  end.

(** The state the blocks start from. *)
Definition bench_start (haveAlgo0 : have_t) : bstate :=
  let Nfloat := bench_Nfloat BK cfg N cplx in
  {| buf := {| Xbuf := bench_input junk Nfloat;
               Ybuf := fun _ => junk;
               Zbuf := fun _ => junk |};
     tmeas := tmeas_cleared; haveAlgo := haveAlgo0 |}.
End Blocks.




(** ** Further instances and notions *)

(** The sizes the sweep of the validation calls [pffft_validate_N] for. *)
Definition validated_sizes (cplx : bool) (sizes : list Z) : list Z :=
  filter (fun N => negb ((N =? 16) && negb cplx)) sizes.

(** A PFFFT stand-in whose forward transform returns zeros: it agrees with
    itself in every mode, and differs from FFTPACK. *)
Definition wrong_forward_kernel : ValKernel := {|
  Setup := pffft_transform_t;
  pffft_new_setup := fun _ t => Some t;
  pffft_transform := fun _ x _ d =>
    match d with
    | PFFFT_FORWARD => map (fun _ => F32.zero) x
    | PFFFT_BACKWARD => x
    end;
  pffft_transform_ordered := fun _ x _ d =>
    match d with
    | PFFFT_FORWARD => map (fun _ => F32.zero) x
    | PFFFT_BACKWARD => x
    end;
  pffft_zreorder := fun _ x _ => x;
  pffft_zconvolve_accumulate := fun t a b ab scaling => toy_convolve (is_real t) a b ab scaling;
  rfftf := fun _ x => x;
  cfftf := fun _ x => x;
  RAND_MAX := 2147483647
|}.


(** Every call of the body leaves cell [Nmax] of [X] as it finds it. *)
Definition keeps_guard (Nmax : Z) (body : list op) : Prop :=
  Forall (fun o => match o with
                   | Check => True
                   | Call f => forall b, Xbuf (f b) Nmax = Xbuf b Nmax
                   end) body.

(** The loop bodies of [benchmark_ffts] that check the guard after every
    call: all of them but the real-domain body of the Green FFTs. *)
Definition checked_bodies {K} (BK : BenchAPI.t K) (N log2N : Z) (cplx : bool)
    (fl : fftw_flags) (s : Setup K) : list (list op) :=
  [fftpack_body BK N cplx; veclib_body BK log2N cplx; fftw_body BK N cplx fl;
   green_body BK log2N true; kiss_body BK N cplx; pffft_u_body BK s; pffft_o_body BK s].


(** The cells [(N, domain)] [main] calls [benchmark_ffts] for, in the
    order of the calls: size by size in the table format, domain by
    domain in the other. *)
Definition sweep_cells (o : options) : list (Z * bool) :=
  let real := fun n : Z => if benchReal o then [(n, false)] else [] in
  let cplx := fun n : Z => if benchCplx o then [(n, true)] else [] in
  if array_output_format o
  then flat_map (fun n => real n ++ cplx n) (Nvalues o)
  else flat_map real (Nvalues o) ++ flat_map cplx (Nvalues o).

(** Timed kernels that count their calls: the forward PFFFT transform
    adds [1] to [Y[0]], the backward one adds [1] to [Z[0]]. *)
Definition count_forward : call :=
  fun b => {| Xbuf := Xbuf b; Ybuf := store (Ybuf b) 0 (F32.add (Ybuf b 0) F32.one);
              Zbuf := Zbuf b |}.
Definition count_backward : call :=
  fun b => {| Xbuf := Xbuf b; Ybuf := Ybuf b;
              Zbuf := store (Zbuf b) 0 (F32.add (Zbuf b 0) F32.one) |}.

Definition counting_bench (K : ValKernel) : BenchAPI.t K := {|
  BenchAPI.pffft_next_power_of_two := fun n => 2 ^ Z.log2_up n;
  BenchAPI.pffft_is_power_of_two := fun n => n =? 2 ^ Z.log2 n;
  BenchAPI.pffft_simd_size := 4;
  BenchAPI.pffft_transform := fun _ d =>
    match d with PFFFT_FORWARD => count_forward | PFFFT_BACKWARD => count_backward end;
  BenchAPI.pffft_transform_ordered := fun _ _ => ident_call;
  BenchAPI.cfftf := fun _ => ident_call;
  BenchAPI.cfftb := fun _ => ident_call;
  BenchAPI.rfftf := fun _ => ident_call;
  BenchAPI.rfftb := fun _ => ident_call;
  BenchAPI.vDSP_fft_zip := fun _ _ => ident_call;
  BenchAPI.vDSP_fft_zrip := fun _ _ => ident_call;
  BenchAPI.fftwf_execute := fun _ => ident_call;
  BenchAPI.ffts := fun _ => ident_call;
  BenchAPI.iffts := fun _ => ident_call;
  BenchAPI.rffts := fun _ => ident_call;
  BenchAPI.riffts := fun _ => ident_call;
  BenchAPI.kiss_fft := fun _ _ => ident_call;
  BenchAPI.kiss_fftr := fun _ => ident_call;
  BenchAPI.kiss_fftri := fun _ => ident_call;
  BenchAPI.log := fun x => x
|}.

(** One round trip of the probe: the forward transform, then the
    backward one. *)
Definition cal_pair {K} (BK : BenchAPI.t K) (s : Setup K) : call :=
  fun b => BenchAPI.pffft_transform BK s PFFFT_BACKWARD
             (BenchAPI.pffft_transform BK s PFFFT_FORWARD b).





(** A backward FFTPACK transform of the complex domain that counts its
    calls in [Y[0]] and, at its fourth call, writes [0] into cell [k] of
    [X]; the other timed kernels leave the buffers alone. *)
Definition late_clobber (k : Z) : call :=
  fun b =>
    if F32.eqb (Ybuf b 0) (F32.of_Z 3) then clobber_X k b
    else {| Xbuf := Xbuf b; Ybuf := store (Ybuf b) 0 (F32.add (Ybuf b 0) F32.one);
            Zbuf := Zbuf b |}.

Definition late_clobbering_bench (K : ValKernel) (k : Z) : BenchAPI.t K := {|
  BenchAPI.pffft_next_power_of_two := fun n => 2 ^ Z.log2_up n;
  BenchAPI.pffft_is_power_of_two := fun n => n =? 2 ^ Z.log2 n;
  BenchAPI.pffft_simd_size := 4;
  BenchAPI.pffft_transform := fun _ _ => ident_call;
  BenchAPI.pffft_transform_ordered := fun _ _ => ident_call;
  BenchAPI.cfftf := fun _ => ident_call;
  BenchAPI.cfftb := fun _ => late_clobber k;
  BenchAPI.rfftf := fun _ => ident_call;
  BenchAPI.rfftb := fun _ => ident_call;
  BenchAPI.vDSP_fft_zip := fun _ _ => ident_call;
  BenchAPI.vDSP_fft_zrip := fun _ _ => ident_call;
  BenchAPI.fftwf_execute := fun _ => ident_call;
  BenchAPI.ffts := fun _ => ident_call;
  BenchAPI.iffts := fun _ => ident_call;
  BenchAPI.rffts := fun _ => ident_call;
  BenchAPI.riffts := fun _ => ident_call;
  BenchAPI.kiss_fft := fun _ _ => ident_call;
  BenchAPI.kiss_fftr := fun _ => ident_call;
  BenchAPI.kiss_fftri := fun _ => ident_call;
  BenchAPI.log := fun x => x
|}.



(** * Properties *)

(** ** Integer helpers *)

Lemma MAX_is_max (x y : Z) : MAX x y = Z.max x y.
Proof.
  unfold MAX. destruct (Z.gtb_spec x y); lia.
Qed.

Lemma Log2_512 : Log2 512 = 9.
Proof. reflexivity. Qed.

(** ** The timed loop *)

Lemma step_block_counts (k : nat) (Nmax : Z) (body : list op) :
  forall (b : bufs) (iter : Z) (b' : bufs) (iter' : Z),
    step_block k Nmax body b iter = Returns (b', iter') ->
    iter' = iter + Z.of_nat k.
Proof.
  induction k as [|k IH]; intros b iter b' iter' H; simpl in H.
  - inversion H; subst; lia.
  - destruct (run_ops Nmax body b) as [b1| | | |]; try discriminate.
    apply IH in H. lia.
Qed.



Lemma run_ops_calls_only (Nmax : Z) (body : list op) :
  calls_only body -> forall b, exists b', run_ops Nmax body b = Returns b'.
Proof.
  induction 1 as [|o body Ho _ IH]; intros b; simpl.
  - now exists b.
  - destruct o as [|f]; [congruence|]. simpl. apply IH.
Qed.

Lemma step_block_calls_only (k : nat) (Nmax : Z) (body : list op) :
  calls_only body ->
  forall b iter, exists b', step_block k Nmax body b iter = Returns (b', iter + Z.of_nat k).
Proof.
  intros Hc. induction k as [|k IH]; intros b iter; simpl.
  - exists b. do 2 f_equal. lia.
  - destruct (run_ops_calls_only Nmax body Hc b) as [b1 ->].
    destruct (IH b1 (iter + 1)) as [b' ->]. exists b'. do 2 f_equal. lia.
Qed.

Lemma timed_loop_S (fuel : nat) (clk : nat -> double) (Nmax : Z) (body : list op)
    (step : Z) (tstop : double) (b : bufs) (iter : Z) (n : nat) :
  timed_loop (S fuel) clk Nmax body step tstop b iter n =
  match step_block (Z.to_nat step) Nmax body b iter with
  | Returns (b', iter') =>
      if F64.ltb (clk n) tstop
      then timed_loop fuel clk Nmax body step tstop b' iter' (S n)
      else Returns (b', iter', clk n, S n)
  | Exits code => Exits code
  | Aborts => Aborts
  | Undefined => Undefined
  | OutOfFuel => OutOfFuel
  end.
Proof.
  cbn [timed_loop]. unfold bbind, lift, uclock_sec, bret.
  destruct (step_block (Z.to_nat step) Nmax body b iter) as [[b' iter']| | | |];
    try reflexivity.
  now destruct (F64.ltb (clk n) tstop).
Qed.

(** The loop, read backwards: when it returns it ran [m >= 1] rounds, took
    one reading per round, stopped at the first reading that is not below
    [tstop], and counted [step] iterations per round. *)
Lemma timed_loop_inv (clk : nat -> double) (Nmax : Z) (body : list op)
    (step : Z) (tstop : double) :
  forall (fuel : nat) (b : bufs) (iter : Z) (n : nat) b' iter' t1 n',
    timed_loop fuel clk Nmax body step tstop b iter n = Returns (b', iter', t1, n') ->
    exists m : nat,
      (1 <= m <= fuel)%nat /\ n' = (n + m)%nat /\
      iter' = iter + Z.of_nat m * Z.of_nat (Z.to_nat step) /\
      t1 = clk (n + m - 1)%nat /\
      F64.ltb t1 tstop = false /\
      (forall j, (j < m - 1)%nat -> F64.ltb (clk (n + j)%nat) tstop = true).
Proof.
  induction fuel as [|fuel IH]; intros b iter n b' iter' t1 n' H.
  - discriminate.
  - rewrite timed_loop_S in H.
    destruct (step_block (Z.to_nat step) Nmax body b iter) as [[b1 it1]| | | |] eqn:E;
      try discriminate.
    apply step_block_counts in E.
    destruct (F64.ltb (clk n) tstop) eqn:Hlt.
    + apply IH in H. destruct H as (m & Hm & -> & -> & -> & Hstop & Hbelow).
      exists (S m).
      split; [lia|]. split; [lia|]. split; [lia|].
      split; [f_equal; lia|]. split.
      * replace (n + S m - 1)%nat with (S n + m - 1)%nat by lia. exact Hstop.
      * intros j Hj. destruct j as [|j].
        -- now rewrite Nat.add_0_r.
        -- replace (n + S j)%nat with (S n + j)%nat by lia. apply Hbelow. lia.
    + inversion H; subst.
      exists 1%nat.
      split; [lia|]. split; [lia|]. split; [lia|].
      split; [f_equal; lia|]. split.
      * replace (n + 1 - 1)%nat with n by lia. exact Hlt.
      * intros j Hj. lia.
Qed.

(** The loop, read forwards, for a body of calls: if the [m]-th reading
    is the first that is not below [tstop], the loop returns after [m]
    rounds. *)
Lemma timed_loop_run (clk : nat -> double) (Nmax : Z) (body : list op)
    (step : Z) (tstop : double) :
  calls_only body ->
  forall (m fuel : nat) (b : bufs) (iter : Z) (n : nat),
    (1 <= m <= fuel)%nat ->
    (forall j, (j < m - 1)%nat -> F64.ltb (clk (n + j)%nat) tstop = true) ->
    F64.ltb (clk (n + m - 1)%nat) tstop = false ->
    exists b',
      timed_loop fuel clk Nmax body step tstop b iter n =
      Returns (b', iter + Z.of_nat m * Z.of_nat (Z.to_nat step), clk (n + m - 1)%nat,
               (n + m)%nat).
Proof.
  intros Hc. induction m as [|m IH]; intros fuel b iter n Hm Hbelow Hstop; [lia|].
  destruct fuel as [|fuel]; [lia|]. rewrite timed_loop_S.
  destruct (step_block_calls_only (Z.to_nat step) Nmax body Hc b iter) as [b1 ->].
  destruct m as [|m].
  - replace (n + 1 - 1)%nat with n in * by lia. rewrite Hstop.
    exists b1.
    replace (iter + Z.of_nat 1 * Z.of_nat (Z.to_nat step))
      with (iter + Z.of_nat (Z.to_nat step)) by lia.
    now replace (n + 1)%nat with (S n) by lia.
  - assert (H0 : F64.ltb (clk n) tstop = true).
    { specialize (Hbelow 0%nat ltac:(lia)). now rewrite Nat.add_0_r in Hbelow. }
    rewrite H0.
    destruct (IH fuel b1 (iter + Z.of_nat (Z.to_nat step)) (S n)) as [b' Hb'].
    + lia.
    + intros j Hj. replace (S n + j)%nat with (n + S j)%nat by lia. apply Hbelow. lia.
    + replace (S n + S m - 1)%nat with (n + S (S m) - 1)%nat by lia. exact Hstop.
    + exists b'. rewrite Hb'.
      replace (iter + Z.of_nat (Z.to_nat step) + Z.of_nat (S m) * Z.of_nat (Z.to_nat step))
        with (iter + Z.of_nat (S (S m)) * Z.of_nat (Z.to_nat step)) by lia.
      replace (S n + S m - 1)%nat with (n + S (S m) - 1)%nat by lia.
      now replace (S n + S m)%nat with (n + S (S m))%nat by lia.
Qed.

(** ** cal_benchmark *)

Lemma bbind_returns {A B'} (c : B A) (k : A -> B B') (n n' : nat) (b : B') :
  bbind c k n = Returns (b, n') ->
  exists a n1, c n = Returns (a, n1) /\ k a n1 = Returns (b, n').
Proof.
  unfold bbind. destruct (c n) as [[a n1]| | | |]; try discriminate.
  intros H. now exists a, n1.
Qed.

Lemma lift_returns {A} (r : result A) (n n' : nat) (a : A) :
  lift r n = Returns (a, n') -> r = Returns a /\ n' = n.
Proof.
  unfold lift. destruct r; try discriminate. intros H. inversion H. now split.
Qed.

Lemma int_result_returns (z z' : Z) :
  int_result z = Returns z' -> z' = z /\ INT_MIN <= z <= INT_MAX.
Proof.
  unfold int_result. destruct ((INT_MIN <=? z) && (z <=? INT_MAX)) eqn:E; [|discriminate].
  intros H. inversion H. apply andb_true_iff in E. destruct E as [E1 E2].
  apply Z.leb_le in E1. apply Z.leb_le in E2. split; [reflexivity|lia].
Qed.

Lemma int_result_in_range (z : Z) :
  INT_MIN <= z <= INT_MAX -> int_result z = Returns z.
Proof.
  intros H. unfold int_result.
  destruct (Z.leb_spec INT_MIN z); [|lia]. destruct (Z.leb_spec z INT_MAX); [|lia].
  reflexivity.
Qed.

Lemma cal_body_calls_only {K} (BK : BenchAPI.t K) (s : Setup K) :
  calls_only (cal_body BK s).
Proof. repeat constructor; discriminate. Qed.

(** A block of the probe is [k] round trips of the buffers. *)
Lemma step_block_cal {K} (BK : BenchAPI.t K) (s : Setup K) (Nmax : Z) :
  forall (k : nat) (b : bufs) (iter : Z),
    step_block k Nmax (cal_body BK s) b iter
    = Returns (Nat.iter k (cal_pair BK s) b, iter + Z.of_nat k).
Proof.
  induction k as [|k IH]; intros b iter.
  - simpl. now rewrite Z.add_0_r.
  - cbn [step_block cal_body run_ops run_op]. rewrite IH.
    rewrite Nat.iter_succ_r. unfold cal_pair at 3. f_equal. f_equal. lia.
Qed.

(** The loop of the probe, read backwards: the buffers it ends with are
    the buffers it started from after [m] blocks of round trips. *)
Lemma timed_loop_cal_inv {K} (BK : BenchAPI.t K) (s : Setup K) (clk : nat -> double)
    (Nmax : Z) (step : nat) (tstop : double) :
  forall (fuel : nat) (b : bufs) (iter : Z) (n : nat) b' iter' t1 n',
    timed_loop fuel clk Nmax (cal_body BK s) (Z.of_nat step) tstop b iter n
      = Returns (b', iter', t1, n') ->
    exists m : nat,
      (1 <= m <= fuel)%nat /\ n' = (n + m)%nat /\
      iter' = iter + Z.of_nat (step * m) /\
      b' = Nat.iter (step * m) (cal_pair BK s) b /\
      t1 = clk (n + m - 1)%nat /\
      F64.ltb t1 tstop = false /\
      (forall j, (j < m - 1)%nat -> F64.ltb (clk (n + j)%nat) tstop = true).
Proof.
  induction fuel as [|fuel IH]; intros b iter n b' iter' t1 n' H.
  - discriminate.
  - rewrite timed_loop_S, Nat2Z.id, step_block_cal in H.
    destruct (F64.ltb (clk n) tstop) eqn:Hlt.
    + apply IH in H. destruct H as (m & Hm & -> & -> & -> & -> & Hstop & Hbelow).
      exists (S m).
      split; [lia|]. split; [lia|]. split; [lia|]. split.
      * rewrite <- Nat.iter_add. f_equal. lia.
      * split; [f_equal; lia|]. split.
        -- replace (n + S m - 1)%nat with (S n + m - 1)%nat by lia. exact Hstop.
        -- intros j Hj. destruct j as [|j].
           ++ now rewrite Nat.add_0_r.
           ++ replace (n + S j)%nat with (S n + j)%nat by lia. apply Hbelow. lia.
    + inversion H; subst.
      exists 1%nat.
      split; [lia|]. split; [lia|]. split; [lia|]. split.
      * f_equal. lia.
      * split; [f_equal; lia|]. split.
        -- replace (n + 1 - 1)%nat with n by lia. exact Hlt.
        -- intros j Hj. lia.
Qed.

(** What a probe that reaches the end of its loop has done. *)
Lemma cal_loop_returns {K} (BK : BenchAPI.t K) clk fuel junk N cplx n b iter t0 t1 n' :
  cal_loop BK clk fuel junk N cplx n = Returns (b, iter, t0, t1, n') ->
  exists (s : Setup K) (m : nat),
    BenchAPI.pffft_is_power_of_two BK N = true /\
    pffft_new_setup K N (kind_of cplx) = Some s /\
    (1 <= m <= fuel)%nat /\ n' = (n + 1 + m)%nat /\
    iter = 512 * Z.of_nat m /\ iter <= INT_MAX /\
    b = Nat.iter (512 * m) (cal_pair BK s) (cal_start junk (if cplx then N * 2 else N)) /\
    t0 = clk n /\ t1 = clk (n + m)%nat /\
    F64.ltb (clk (n + m)%nat) (F64.add (clk n) (F64.lit 1 4)) = false /\
    (forall j, (1 <= j < m)%nat ->
               F64.ltb (clk (n + j)%nat) (F64.add (clk n) (F64.lit 1 4)) = true).
Proof.
  unfold cal_loop. intros H.
  apply bbind_returns in H. destruct H as (Nfloat & n0 & HN & H).
  apply lift_returns in HN. destruct HN as [HN ->].
  assert (ENf : Nfloat = if cplx then N * 2 else N).
  { destruct cplx; [now apply int_result_returns in HN|now inversion HN]. }
  apply bbind_returns in H. destruct H as ([] & n0 & Hp & H).
  apply lift_returns in Hp. destruct Hp as [Hp ->].
  destruct (BenchAPI.pffft_is_power_of_two BK N); [|discriminate].
  destruct (pffft_new_setup K N (kind_of cplx)) as [s|]; [|discriminate].
  apply bbind_returns in H. destruct H as (t0' & n1 & Ht0 & H).
  unfold uclock_sec in Ht0. inversion Ht0; subst t0' n1; clear Ht0.
  apply bbind_returns in H. destruct H as ([[b1 it1] t1'] & n2 & Hloop & H).
  apply bbind_returns in H. destruct H as (it2 & n3 & Hit & H).
  apply lift_returns in Hit. destruct Hit as [Hit ->].
  apply int_result_returns in Hit. destruct Hit as [-> Hrange].
  unfold bret in H. inversion H; subst; clear H.
  change 512 with (Z.of_nat 512) in Hloop.
  apply timed_loop_cal_inv in Hloop.
  destruct Hloop as (m & Hm & -> & -> & -> & -> & Hstop & Hbelow).
  exists s, m.
  replace (S n + m - 1)%nat with (n + m)%nat in * by lia.
  split; [reflexivity|]. split; [reflexivity|]. split; [exact Hm|]. split; [lia|].
  split; [lia|]. split; [lia|]. split; [reflexivity|]. split; [reflexivity|].
  split; [reflexivity|]. split; [exact Hstop|].
  intros j Hj. replace (n + j)%nat with (S n + (j - 1))%nat by lia. apply Hbelow. lia.
Qed.

(** The probe, read forwards: with a setup and a clock whose [m]-th
    reading after [t0] is the first that is not below [t0 + 0.25], it
    reaches the end of its loop after [m] blocks. *)
Lemma cal_loop_run {K} (BK : BenchAPI.t K) clk fuel junk N cplx (s : Setup K) (m n : nat) :
  BenchAPI.pffft_is_power_of_two BK N = true ->
  pffft_new_setup K N (kind_of cplx) = Some s ->
  INT_MIN <= N * 2 <= INT_MAX ->
  (1 <= m <= fuel)%nat ->
  512 * Z.of_nat m <= INT_MAX ->
  (forall j, (1 <= j < m)%nat ->
             F64.ltb (clk (n + j)%nat) (F64.add (clk n) (F64.lit 1 4)) = true) ->
  F64.ltb (clk (n + m)%nat) (F64.add (clk n) (F64.lit 1 4)) = false ->
  cal_loop BK clk fuel junk N cplx n
  = Returns (Nat.iter (512 * m) (cal_pair BK s) (cal_start junk (if cplx then N * 2 else N)),
             512 * Z.of_nat m, clk n, clk (n + m)%nat, (n + 1 + m)%nat).
Proof.
  intros Hpow Hs HN Hm Hint Hbelow Hstop.
  destruct (timed_loop_run clk 0 (cal_body BK s) 512 (F64.add (clk n) (F64.lit 1 4))
              (cal_body_calls_only BK s) m fuel
              (cal_start junk (if cplx then N * 2 else N)) 0 (S n) Hm) as [b' Hrun].
  { intros j Hj. replace (S n + j)%nat with (n + S j)%nat by lia. apply Hbelow. lia. }
  { replace (S n + m - 1)%nat with (n + m)%nat by lia. exact Hstop. }
  pose proof Hrun as Hinv. change 512 with (Z.of_nat 512) in Hinv at 1.
  apply timed_loop_cal_inv in Hinv.
  destruct Hinv as (m' & _ & Hn' & _ & Hb' & _).
  assert (m' = m) by lia. subst m'.
  unfold cal_loop, bbind, lift, uclock_sec, bret.
  assert (ENf : (if cplx then int_result (N * 2) else Returns N)
                = Returns (if cplx then N * 2 else N)).
  { destruct cplx; [now apply int_result_in_range|reflexivity]. }
  rewrite ENf, Hpow, Hs, Hrun.
  rewrite int_result_in_range by (unfold INT_MIN, INT_MAX in *; lia).
  rewrite Hb'.
  replace (S n + m - 1)%nat with (n + m)%nat by lia.
  replace (S n + m)%nat with (n + 1 + m)%nat by lia.
  replace (0 + Z.of_nat m * Z.of_nat (Z.to_nat 512)) with (512 * Z.of_nat m) by lia.
  reflexivity.
Qed.

(** C3.  For both domains, the probe at [N = 512] runs blocks of 512
    round trips, a forward [pffft_transform] followed by a backward one
    on the setup of size 512, until the first reading of the clock that
    is not below [t0 + 0.25].  With [m] that reading, the loop ends with
    the buffers it started from after [512 * m] round trips and nothing
    else, and with the counter at [512 * m]; the function returns
    [iterations * (512 * log2(512)) / elapsed], where [iterations] is
    that number of round trips and [elapsed = t1 - t0] the measured
    time.  The clock is any sequence of readings, and [512 * m] is an
    [int]. *)
Theorem cal_benchmark_512_rate :
  forall (K : ValKernel) (BK : BenchAPI.t K) (clk : nat -> double) (junk : float)
         (cplx : bool) (s : Setup K) (m fuel n : nat),
    BenchAPI.pffft_is_power_of_two BK 512 = true ->
    pffft_new_setup K 512 (kind_of cplx) = Some s ->
    (1 <= m <= fuel)%nat ->
    512 * Z.of_nat m <= INT_MAX ->
    (forall j, (1 <= j < m)%nat ->
               F64.ltb (clk (n + j)%nat) (F64.add (clk n) (F64.lit 1 4)) = true) ->
    F64.ltb (clk (n + m)%nat) (F64.add (clk n) (F64.lit 1 4)) = false ->
    let pair : call :=
      fun b => BenchAPI.pffft_transform BK s PFFFT_BACKWARD
                 (BenchAPI.pffft_transform BK s PFFFT_FORWARD b) in
    let pairs := (512 * m)%nat in
    let iterations := Z.of_nat pairs in
    let elapsedSeconds := F64.sub (clk (n + m)%nat) (clk n) in
    cal_loop BK clk fuel junk 512 cplx n =
    Returns (Nat.iter pairs pair (cal_start junk (if cplx then 1024 else 512)),
             iterations, clk n, clk (n + m)%nat, (n + 1 + m)%nat) /\
    cal_benchmark BK clk fuel junk 512 cplx n =
    Returns (F64.div (F64.mul (F64.of_Z iterations) (F64.of_Z (9 * 512))) elapsedSeconds,
             (n + 1 + m)%nat).
Proof.
  intros K BK clk junk cplx s m fuel n Hpow Hs Hm Hint Hbelow Hstop
         pair pairs iterations elapsed.
  assert (Hloop := cal_loop_run BK clk fuel junk 512 cplx s m n Hpow Hs
                     ltac:(unfold INT_MIN, INT_MAX; lia) Hm Hint Hbelow Hstop).
  change (512 * 2) with 1024 in Hloop.
  assert (Hit : iterations = 512 * Z.of_nat m) by (unfold iterations, pairs; lia).
  split.
  - rewrite Hloop, Hit. reflexivity.
  - unfold cal_benchmark. cbv zeta. unfold bbind at 1. rewrite Hloop.
    unfold bbind, lift, bret. rewrite Log2_512.
    rewrite int_result_in_range by (unfold INT_MIN, INT_MAX; lia).
    now rewrite Hit.
Qed.

Lemma cal_benchmark_512_rate_witness :
  let K := toy_kernel (fun _ => true) in
  let BK := counting_bench K in
  let pair : call := fun b => count_backward (count_forward b) in
  (cal_loop BK second_clock 1 F32.zero 512 true 0%nat =
   Returns (Nat.iter (512 * 1) pair (cal_start F32.zero 1024),
            Z.of_nat (512 * 1), second_clock 0, second_clock (0 + 1), (0 + 1 + 1)%nat) /\
   cal_benchmark BK second_clock 1 F32.zero 512 true 0%nat =
   Returns (F64.div (F64.mul (F64.of_Z (Z.of_nat (512 * 1))) (F64.of_Z (9 * 512)))
                    (F64.sub (second_clock (0 + 1)) (second_clock 0)), (0 + 1 + 1)%nat)) /\
  Ybuf (Nat.iter (512 * 1) pair (cal_start F32.zero 1024)) 0 = F32.of_Z 512 /\
  Zbuf (Nat.iter (512 * 1) pair (cal_start F32.zero 1024)) 0 = F32.of_Z 512.
Proof.
  intros K BK pair. split.
  - apply (cal_benchmark_512_rate K BK second_clock F32.zero true (512, PFFFT_COMPLEX)
             1%nat 1%nat 0%nat).
    + reflexivity.
    + reflexivity.
    + lia.
    + vm_compute. discriminate.
    + intros j Hj. lia.
    + vm_compute. reflexivity.
  - split; vm_compute; reflexivity.
Defined.

(** C10.  Every run of the probe that returns has run [m >= 1] whole
    blocks of 512 round trips, forward then backward transform: the loop
    leaves the buffers it started from after exactly [512 * m] round
    trips, and the count that enters the result is [512 * m], at least
    512.  The clock was read once before the loop and once after each
    block; the readings after the first [m - 1] blocks were below
    [t0 + 0.25] and the last one was not, so the elapsed time passes the
    window by less than the time of the last block.  The count and the
    product [log2N * N] are [int]s: a run in which one of them overflows
    has no defined result. *)
Theorem cal_benchmark_whole_blocks :
  forall (K : ValKernel) (BK : BenchAPI.t K) (clk : nat -> double) (fuel : nat)
         (junk : float) (N : Z) (cplx : bool) (n n' : nat) (v : double),
    cal_benchmark BK clk fuel junk N cplx n = Returns (v, n') ->
    exists (m : nat) (s : Setup K),
      (1 <= m)%nat /\
      pffft_new_setup K N (kind_of cplx) = Some s /\
      n' = (n + 1 + m)%nat /\
      512 <= 512 * Z.of_nat m <= INT_MAX /\
      INT_MIN <= Log2 N * N <= INT_MAX /\
      (let pair : call :=
         fun b => BenchAPI.pffft_transform BK s PFFFT_BACKWARD
                    (BenchAPI.pffft_transform BK s PFFFT_FORWARD b) in
       cal_loop BK clk fuel junk N cplx n =
       Returns (Nat.iter (512 * m) pair (cal_start junk (if cplx then N * 2 else N)),
                512 * Z.of_nat m, clk n, clk (n + m)%nat, n')) /\
      v = F64.div (F64.mul (F64.of_Z (512 * Z.of_nat m)) (F64.of_Z (Log2 N * N)))
                  (F64.sub (clk (n + m)%nat) (clk n)) /\
      F64.ltb (clk (n + m)%nat) (F64.add (clk n) (F64.lit 1 4)) = false /\
      (forall j, (1 <= j < m)%nat ->
                 F64.ltb (clk (n + j)%nat) (F64.add (clk n) (F64.lit 1 4)) = true).
Proof.
  intros K BK clk fuel junk N cplx n n' v H.
  unfold cal_benchmark in H. cbv zeta in H.
  apply bbind_returns in H. destruct H as ([[[b iter] t0] t1] & n1 & Hloop & H).
  apply bbind_returns in H. destruct H as (w & n2 & Hw & H).
  apply lift_returns in Hw. destruct Hw as [Hw ->].
  apply int_result_returns in Hw. destruct Hw as [-> Hrange].
  unfold bret in H. inversion H; subst; clear H.
  pose proof Hloop as Hinv. apply cal_loop_returns in Hinv.
  destruct Hinv as (s & m & _ & Hs & Hm & -> & -> & Hint & -> & -> & -> & Hstop & Hbelow).
  exists m, s.
  split; [lia|]. split; [exact Hs|]. split; [reflexivity|]. split; [lia|].
  split; [exact Hrange|]. split; [exact Hloop|]. split; [reflexivity|].
  split; [exact Hstop|exact Hbelow].
Qed.

Lemma cal_benchmark_whole_blocks_witness :
  exists (m : nat) (s : Z * pffft_transform_t),
    (1 <= m)%nat /\
    pffft_new_setup (toy_kernel (fun _ => true)) 512 (kind_of false) = Some s /\
    2%nat = (0 + 1 + m)%nat /\
    512 <= 512 * Z.of_nat m <= INT_MAX /\
    INT_MIN <= Log2 512 * 512 <= INT_MAX /\
    (let pair : call := fun b => count_backward (count_forward b) in
     cal_loop (counting_bench (toy_kernel (fun _ => true))) second_clock 3 F32.zero 512 false
              0%nat =
     Returns (Nat.iter (512 * m) pair (cal_start F32.zero (if false then 512 * 2 else 512)),
              512 * Z.of_nat m, second_clock 0, second_clock (0 + m), 2%nat)) /\
    F64.of_Z 2359296 =
      F64.div (F64.mul (F64.of_Z (512 * Z.of_nat m)) (F64.of_Z (Log2 512 * 512)))
              (F64.sub (second_clock (0 + m)) (second_clock 0)) /\
    F64.ltb (second_clock (0 + m)) (F64.add (second_clock 0) (F64.lit 1 4)) = false /\
    (forall j, (1 <= j < m)%nat ->
               F64.ltb (second_clock (0 + j)) (F64.add (second_clock 0) (F64.lit 1 4)) = true).
Proof.
  apply (cal_benchmark_whole_blocks (toy_kernel (fun _ => true))
           (counting_bench (toy_kernel (fun _ => true)))
           second_clock 3%nat F32.zero 512 false 0%nat 2%nat (F64.of_Z 2359296)).
  vm_compute. reflexivity.
Defined.

(** ** Floating-point comparisons *)










(** ** The validation monad *)

Lemma bind_snd_returns {A B} (c : V A) (k : A -> V B) (b : B) :
  snd (bind c k) = Returns b ->
  exists a, snd c = Returns a /\ snd (k a) = Returns b.
Proof.
  unfold bind. destruct c as [l [a|code| | |]]; simpl; try discriminate.
  destruct (k a) as [l' r] eqn:E. simpl. intros ->. exists a. now rewrite E.
Qed.





Lemma bind_stops {A B} (c : V A) (k : A -> V B) :
  returns_or_stops (snd c) ->
  (forall a, snd c = Returns a -> stops (snd (k a))) ->
  stops (snd (bind c k)).
Proof.
  unfold bind. destruct c as [l r]. simpl. intros [[a ->]|[-> | ->]] Hk.
  - specialize (Hk a eq_refl). destruct (k a) as [l' r']. exact Hk.
  - now left.
  - now right.
Qed.

Lemma bind_returns_or_stops {A B} (c : V A) (k : A -> V B) :
  returns_or_stops (snd c) ->
  (forall a, snd c = Returns a -> returns_or_stops (snd (k a))) ->
  returns_or_stops (snd (bind c k)).
Proof.
  unfold bind. destruct c as [l r]. simpl. intros [[a ->]|[-> | ->]] Hk.
  - specialize (Hk a eq_refl). destruct (k a) as [l' r']. exact Hk.
  - right. now left.
  - right. now right.
Qed.

Lemma ret_returns_or_stops {A} (a : A) : returns_or_stops (snd (ret a)).
Proof. left. now exists a. Qed.

Lemma assert_returns_or_stops (b : bool) : returns_or_stops (snd (assert b)).
Proof. destruct b; [left; now exists tt|right; now right]. Qed.

Lemma for_each_returns_or_stops (ks : list nat) (body : nat -> V unit) :
  (forall k, returns_or_stops (snd (body k))) ->
  returns_or_stops (snd (for_each ks body)).
Proof.
  intros Hb. induction ks as [|k ks IH]; simpl.
  - apply ret_returns_or_stops.
  - apply bind_returns_or_stops; auto.
Qed.

Lemma for_each_returns (ks : list nat) (body : nat -> V unit) :
  snd (for_each ks body) = Returns tt ->
  forall k, In k ks -> snd (body k) = Returns tt.
Proof.
  induction ks as [|j ks IH]; simpl; intros H k Hk; [contradiction|].
  apply bind_snd_returns in H. destruct H as ([] & Hj & Hrest).
  destruct Hk as [<-|Hk]; auto.
Qed.

Lemma for_each_stops (ks : list nat) (body : nat -> V unit) (k : nat) :
  (forall j, returns_or_stops (snd (body j))) ->
  In k ks -> stops (snd (body k)) ->
  stops (snd (for_each ks body)).
Proof.
  intros Hb. induction ks as [|j ks IH]; simpl; intros Hk Hs; [contradiction|].
  destruct Hk as [->|Hk].
  - unfold bind. destruct (body k) as [l r]. simpl in Hs.
    destruct Hs as [-> | ->]; [now left|now right].
  - apply bind_stops; auto.
Qed.


(** ** Reading and writing cells *)

Lemma rd_upd_other (l : list float) (j k : nat) (v : float) :
  j <> k -> rd (upd l j v) k = rd l k.
Proof.
  unfold rd. revert j k. induction l as [|x l IH]; intros j k Hjk; simpl.
  - reflexivity.
  - destruct j as [|j]; destruct k as [|k]; simpl; try reflexivity; try congruence.
    apply IH. congruence.
Qed.

Lemma rd_upd_same (l : list float) (k : nat) (v : float) :
  (k < length l)%nat -> rd (upd l k v) k = v.
Proof.
  unfold rd. revert k. induction l as [|x l IH]; intros k Hk; simpl in *; [lia|].
  destruct k as [|k]; simpl; [reflexivity|]. apply IH. lia.
Qed.

Lemma length_upd (l : list float) (k : nat) (v : float) :
  length (upd l k v) = length l.
Proof.
  revert k. induction l as [|x l IH]; intros k; simpl; [reflexivity|].
  destruct k; simpl; auto.
Qed.

(** ** The stages of a validation pass *)

Section PassFacts.
Variable K : ValKernel.
Variable s : Setup K.
Variables (N : Z) (cplx : bool).

Let cells (k : nat) : Prop := (k < Nfloat_of N cplx)%nat.


Lemma assert_same_returns_or_stops (a b : list float) :
  returns_or_stops (snd (assert_same N cplx a b)).
Proof.
  apply for_each_returns_or_stops. intros k. apply assert_returns_or_stops.
Qed.


Lemma forward_stage_returns_or_stops (pass : Z) (inp : list float) :
  returns_or_stops (snd (forward_stage K s N cplx pass inp)).
Proof.
  unfold forward_stage.
  apply bind_returns_or_stops; [apply assert_same_returns_or_stops|]. intros [] _.
  destruct (pass =? 0).
  - apply bind_returns_or_stops; [apply assert_same_returns_or_stops|]. intros [] _.
    apply ret_returns_or_stops.
  - apply ret_returns_or_stops.
Qed.

Lemma forward_check_returns_or_stops (ref out : list float) (ref_max : float) :
  returns_or_stops (snd (forward_check N cplx ref out ref_max)).
Proof.
  apply for_each_returns_or_stops. intros k.
  destruct (forward_mismatch _ _ _).
  - right. left. reflexivity.
  - apply ret_returns_or_stops.
Qed.

Lemma forward_check_returns (ref out : list float) (ref_max : float) :
  snd (forward_check N cplx ref out ref_max) = Returns tt ->
  forall k, cells k -> forward_mismatch ref_max (rd ref k) (rd out k) = false.
Proof.
  intros H k Hk.
  assert (Hin : In k (seq 0 (Nfloat_of N cplx))) by (apply in_seq; unfold cells in Hk; lia).
  pose proof (for_each_returns _ _ H k Hin) as Hb. simpl in Hb.
  destruct (forward_mismatch _ _ _); [discriminate|reflexivity].
Qed.


Lemma backward_loop_returns_or_stops (tmp2 : list float) :
  forall (l : list nat) (out : list float),
    returns_or_stops (snd (backward_loop N l tmp2 out)).
Proof.
  induction l as [|j l IH]; intros out; simpl.
  - apply ret_returns_or_stops.
  - apply bind_returns_or_stops; [apply assert_returns_or_stops|]. intros [] _. apply IH.
Qed.

(** The round-trip loop never stops the process, whatever it finds. *)
Lemma roundtrip_loop_returns (pass : Z) (inp out : list float) (ref_max : float) :
  forall l : list nat,
    snd (roundtrip_loop N cplx pass l inp out ref_max) = Returns tt.
Proof.
  induction l as [|k l IH]; simpl; [reflexivity|].
  destruct (roundtrip_mismatch _ _ _); [reflexivity|exact IH].
Qed.

Lemma conv_stage_returns_or_stops (ref : list float) :
  returns_or_stops (snd (conv_stage K s N cplx ref)).
Proof.
  unfold conv_stage. destruct (conv_exceeds _ _).
  - right. left. reflexivity.
  - apply ret_returns_or_stops.
Qed.

Lemma conv_stage_stops (ref : list float) :
  conv_exceeds (conv_err_of N cplx (conv_expected K s N cplx ref) (conv_actual K s N cplx ref))
               (conv_max_of N cplx (conv_expected K s N cplx ref)) = true ->
  snd (conv_stage K s N cplx ref) = Exits 1.
Proof.
  unfold conv_stage. intros ->. reflexivity.
Qed.



(** A pass returns or stops the process; it stops it when the convolution
    check finds an excess. *)
Lemma validate_pass_returns_or_stops (inp ref : list float) (pass : Z) :
  returns_or_stops (snd (validate_pass K s N cplx inp ref pass)).
Proof.
  unfold validate_pass.
  apply bind_returns_or_stops; [apply forward_stage_returns_or_stops|]. intros [tmp out] _.
  apply bind_returns_or_stops; [apply forward_check_returns_or_stops|]. intros [] _.
  apply bind_returns_or_stops; [apply backward_loop_returns_or_stops|]. intros out' _.
  apply bind_returns_or_stops.
  - left. exists tt. apply roundtrip_loop_returns.
  - intros [] _. apply conv_stage_returns_or_stops.
Qed.

Lemma validate_pass_stops (inp ref : list float) (pass : Z) :
  conv_exceeds (conv_err_of N cplx (conv_expected K s N cplx ref) (conv_actual K s N cplx ref))
               (conv_max_of N cplx (conv_expected K s N cplx ref)) = true ->
  stops (snd (validate_pass K s N cplx inp ref pass)).
Proof.
  intros Hex. unfold validate_pass.
  apply bind_stops; [apply forward_stage_returns_or_stops|]. intros [tmp out] _.
  apply bind_stops; [apply forward_check_returns_or_stops|]. intros [] _.
  apply bind_stops; [apply backward_loop_returns_or_stops|]. intros out' _.
  apply bind_stops.
  - left. exists tt. apply roundtrip_loop_returns.
  - intros [] _. left. now apply conv_stage_stops.
Qed.

End PassFacts.

(** ** The validated properties *)

(** The loop that squares the spectrum: each pair of cells is rewritten
    once, from its own old contents. *)
Section ConvSquare.
Variables (N : Z) (cplx : bool).







End ConvSquare.












(** C1, evaluated on the code.  With a backward transform that returns
    zeros, at size 16 in the complex domain, the round trip misses the
    input at cell 0 by more than [1e-3 * ref_max] in both passes.  The
    validation prints the mismatch twice, then "PFFT is OK", and returns:
    the process goes on to the measurements. *)
Theorem roundtrip_mismatch_is_not_fatal :
  let K := broken_inverse_kernel in
  let s := PFFFT_COMPLEX in
  let inp := random_input K 16 true toy_rand in
  let ref_max := ref_max_of 16 true (reference K 16 true inp) in
  let scaled (pass : Z) (k : nat) :=
    F32.mul (rd (backward_inplace K s pass inp) k) (F32.div F32.one (F32.of_Z 16)) in
  roundtrip_mismatch ref_max (rd inp 0) (scaled 0 0%nat) = true /\
  roundtrip_mismatch ref_max (rd inp 0) (scaled 1 0%nat) = true /\
  pffft_validate_N K toy_rand 16 true =
    ([MsgIFFTMismatch 0 true 16; MsgIFFTMismatch 1 true 16; MsgIsOK true 16], Returns tt).
Proof.
  vm_compute. repeat split; reflexivity.
Qed.

(** ** The guard of the timed loops *)



(** In a guarded body, a call that leaves the guard cell different from
    [checkVal] aborts the process. *)
Lemma guarded_body_aborts (Nmax : Z) :
  forall (pre : list op) (f : call) (post : list op) (b b1 : bufs),
    guarded (pre ++ Call f :: post) = true ->
    run_ops Nmax pre b = Returns b1 ->
    F32.eqb (Xbuf (f b1) Nmax) checkVal = false ->
    run_ops Nmax (pre ++ Call f :: post) b = Aborts.
Proof.
  induction pre as [|o pre IH]; intros f post b b1 Hg Hpre Hbad.
  - simpl in Hpre. inversion Hpre; subst. simpl in *.
    destruct post as [|[|g] post]; try discriminate.
    simpl. now rewrite Hbad.
  - simpl in Hpre. cbn [app run_ops].
    destruct (run_op Nmax o b) as [b2| | | |] eqn:E; try discriminate.
    apply (IH f post b2 b1); [|exact Hpre|exact Hbad].
    destruct o as [|g]; simpl in Hg |- *.
    + exact Hg.
    + destruct (pre ++ Call f :: post) as [|[|h] rest]; try discriminate. exact Hg.
Qed.

(** The bodies of all the timed loops are guarded, but for the
    real-domain loop of the Green FFTs. *)
Lemma bodies_guarded {K} (BK : BenchAPI.t K) (n : Z) (cplx : bool) (fl : fftw_flags)
    (s : Setup K) :
  guarded (fftpack_body BK n cplx) = true /\
  guarded (veclib_body BK n cplx) = true /\
  guarded (fftw_body BK n cplx fl) = true /\
  guarded (green_body BK n true) = true /\
  guarded (kiss_body BK n cplx) = true /\
  guarded (pffft_u_body BK s) = true /\
  guarded (pffft_o_body BK s) = true /\
  guarded (green_body BK n false) = false.
Proof. destruct cplx; repeat split; reflexivity. Qed.

(** C2, evaluated on the code.  Build with the Green FFTs, real domain,
    [N = 32], and an [rffts] that writes over the guard cell [X[32]].  One
    round of the loop body returns with the guard gone, and
    [benchmark_ffts] as a whole returns with a Green measurement
    recorded: no check ever looks at the guard in this loop. *)
Theorem green_real_guard_unchecked :
  let K := toy_kernel (fun _ => true) in
  let BK := toy_bench K (fun _ => clobber_X 32) in
  let b0 := {| Xbuf := store (bench_input F32.zero 32) 32 checkVal;
               Ybuf := fun _ => F32.zero; Zbuf := fun _ => F32.zero |} in
  F32.eqb (Xbuf b0 32) checkVal = true /\
  match run_ops 32 (green_body BK 5 false) b0 return Prop with
  | Returns b' => F32.eqb (Xbuf b' 32) checkVal = false
  | _ => False
  end /\
  match benchmark_ffts BK green_build second_clock 1 F32.zero 32 false false
          (F64.of_Z 1000) (fun _ => false) 0%nat return Prop with
  | Returns (tm, h, _) => h ALGO_GREEN = true /\ tm TYPE_ITER ALGO_GREEN = F64.of_Z 1
  | _ => False
  end.
Proof.
  vm_compute. repeat split; reflexivity.
Qed.

(** ** The measurement table *)

Lemma tset_other_algo (t : table) (k k' : mtype) (a a' : algo) (v : double) :
  a' <> a -> tset t k a v k' a' = t k' a'.
Proof.
  intros H. unfold tset. destruct (mtype_eq_dec k' k); [|reflexivity].
  destruct (algo_eq_dec a' a); [contradiction|reflexivity].
Qed.

Lemma tset_other_type (t : table) (k k' : mtype) (a a' : algo) (v : double) :
  k' <> k -> tset t k a v k' a' = t k' a'.
Proof.
  intros H. unfold tset. destruct (mtype_eq_dec k' k); [contradiction|reflexivity].
Qed.

Lemma tset_same (t : table) (k : mtype) (a : algo) (v : double) :
  tset t k a v k a = v.
Proof.
  unfold tset. destruct (mtype_eq_dec k k); [|contradiction].
  destruct (algo_eq_dec a a); [reflexivity|contradiction].
Qed.

Lemma fset_other (h : have_t) (a a' : algo) (v : bool) :
  a' <> a -> fset h a v a' = h a'.
Proof. intros H. unfold fset. destruct (algo_eq_dec a' a); [contradiction|reflexivity]. Qed.

Lemma fset_same (h : have_t) (a : algo) (v : bool) : fset h a v a = v.
Proof. unfold fset. destruct (algo_eq_dec a a); [reflexivity|contradiction]. Qed.



Lemma same_col_refl (a : algo) (st : bstate) : same_col a st st.
Proof. now split. Qed.

Lemma same_col_trans (a : algo) (st1 st2 st3 : bstate) :
  same_col a st1 st2 -> same_col a st2 st3 -> same_col a st1 st3.
Proof.
  intros [H1 H1'] [H2 H2']. split; [intros k; now rewrite H2, H1|congruence].
Qed.

Lemma same_col_set_guard (a : algo) (Nmax : Z) (st : bstate) :
  same_col a st (set_guard Nmax st).
Proof. now split. Qed.

(** What a measurement that returns has done: it ran [m >= 1] rounds of
    [step_iter] iterations and filled column [a] only. *)
Lemma measure_returns {K} (BK : BenchAPI.t K) clk fuel (a : algo) N cplx Nmax body
    step_iter te (st st' : bstate) (n n' : nat) :
  measure BK clk fuel a N cplx Nmax body step_iter te st n = Returns (st', n') ->
  (forall a', a' <> a -> same_col a' st st') /\
  haveAlgo st' a = true /\
  exists m : nat,
    (1 <= m)%nat /\
    tmeas st' TYPE_ITER a = F64.of_Z (Z.of_nat m * Z.of_nat (Z.to_nat step_iter)).
Proof.
  unfold measure. intros H.
  apply bbind_returns in H. destruct H as (t0 & n1 & Ht0 & H).
  apply bbind_returns in H. destruct H as ([[b max_iter] t1] & n2 & Hloop & H).
  unfold bret in H. inversion H; subst; clear H.
  apply timed_loop_inv in Hloop.
  destruct Hloop as (m & Hm & _ & -> & _).
  split; [|split].
  - intros a' Ha'. unfold record_measure, same_col. cbn [tmeas haveAlgo]. split.
    + intros k. now rewrite !tset_other_algo.
    + now rewrite fset_other.
  - unfold record_measure. cbn [haveAlgo]. apply fset_same.
  - exists m. split; [lia|].
    unfold record_measure. cbn [tmeas].
    rewrite !tset_other_type by discriminate. rewrite tset_same.
    f_equal; lia.
Qed.

Section SectionsOfBenchmark.
Context {K : ValKernel} (BK : BenchAPI.t K).
Variable cfg : build.
Variable clk : nat -> double.
Variable fuel : nat.
Variable junk : float.
Variables (N : Z) (cplx : bool) (withFFTWfullMeas : bool).



Lemma benchmark_ffts_returns (iterCal : double) (haveAlgo0 : have_t) (n n' : nat)
    (tm : table) (h : have_t) :
  benchmark_ffts BK cfg clk fuel junk N cplx withFFTWfullMeas iterCal haveAlgo0 n =
    Returns (tm, h, n') ->
  exists step_iter st,
    step_iter_of (numIter_of max_test_duration iterCal N) = Some step_iter /\
    run_sections BK cfg clk fuel N cplx withFFTWfullMeas all_algos step_iter
      (bench_start BK cfg junk N cplx haveAlgo0) n = Returns (st, n') /\
    tm = relative_pffft (haveAlgo st) (relative_fastest (haveAlgo st) (tmeas st)) /\
    h = haveAlgo st.
Proof.
  unfold benchmark_ffts. intros H.
  destruct (step_iter_of _) as [step_iter|]; [|discriminate].
  destruct (max_iter_of _) as [max_iter|]; [|discriminate].
  exists step_iter.
  cbv zeta in H.
  repeat (apply bbind_returns in H; destruct H as (? & ? & ? & H)).
  unfold bret in H. inversion H; subst; clear H.
  eexists. split; [reflexivity|]. split; [|split; reflexivity].
  unfold all_algos, run_sections, section_of, bench_start, bbind.
  repeat match goal with
         | Hs : ?c = Returns _ |- context [?c] => rewrite Hs
         end.
  reflexivity.
Qed.
End SectionsOfBenchmark.

Section SectionEffects.
Context {K : ValKernel} (BK : BenchAPI.t K).
Variable cfg : build.
Variable clk : nat -> double.
Variable fuel : nat.
Variable junk : float.
Variables (N : Z) (cplx : bool) (withFFTWfullMeas : bool).

Lemma guarded_measure_returns (a : algo) (Nmax Nmax' : Z) (body : list op)
    (step_iter : Z) (st st' : bstate) (n n' : nat) :
  bbind (uclock_sec clk)
        (fun te => measure BK clk fuel a N cplx Nmax body step_iter te (set_guard Nmax' st)) n
    = Returns (st', n') ->
  (forall a', a' <> a -> same_col a' st st') /\
  haveAlgo st' a = true /\
  exists m : nat,
    (1 <= m)%nat /\
    tmeas st' TYPE_ITER a = F64.of_Z (Z.of_nat m * Z.of_nat (Z.to_nat step_iter)).
Proof.
  intros H. apply bbind_returns in H. destruct H as (te & n1 & _ & H).
  apply measure_returns in H. destruct H as (Hframe & Hflag & Hiter).
  split; [|split; assumption].
  intros a' Ha'. apply same_col_trans with (st2 := set_guard Nmax' st).
  - apply same_col_set_guard.
  - now apply Hframe.
Qed.

Lemma when_returns (flag : bool) (f : bstate -> B bstate) (st st' : bstate) (n n' : nat) :
  when flag f st n = Returns (st', n') ->
  (flag = false /\ st' = st) \/ (flag = true /\ f st n = Returns (st', n')).
Proof.
  unfold when, bret. destruct flag; intros H.
  - right. now split.
  - left. inversion H. now split.
Qed.

(** What the block of algorithm [X] does to the table: other columns are
    left alone; column [X] is left alone when [X] is not compiled in, or
    is PFFFT without a setup; otherwise either [haveAlgo[X]] is set, or
    the MFlops entry and [haveAlgo[X]] are left alone. *)
Ltac fin5 H1 H2 H3 H4 H5 :=
  split; [exact H1|split; [exact H2|split; [exact H3|split; [exact H4|
    first [discriminate | intros _; exact H5]]]]].

Ltac fin4 H1 H2 H3 H4 :=
  split; [exact H1|split; [exact H2|split; [exact H3|split; [exact H4|discriminate]]]].

Lemma section_effect (X : algo) (step_iter : Z) (st st' : bstate) (n n' : nat) :
  section_of BK cfg clk fuel N cplx withFFTWfullMeas X step_iter st n = Returns (st', n') ->
  (forall a, a <> X -> same_col a st st') /\
  (compiledInAlgo cfg X = false -> same_col X st st') /\
  (X = ALGO_PFFFT_U \/ X = ALGO_PFFFT_O ->
   pffft_new_setup K (pffftPow2N_of cfg N cplx) (kind_of cplx) = None ->
   same_col X st st') /\
  ((tmeas st' TYPE_MFLOPS X = tmeas st TYPE_MFLOPS X /\ haveAlgo st' X = haveAlgo st X)
   \/ haveAlgo st' X = true) /\
  (X = ALGO_FFTPACK ->
   exists m : nat,
     (1 <= m)%nat /\
     tmeas st' TYPE_ITER X = F64.of_Z (Z.of_nat m * Z.of_nat (Z.to_nat step_iter))).
Proof.
  intros H.
  assert (Hskip : st' = st ->
    (forall a, a <> X -> same_col a st st') /\
    (compiledInAlgo cfg X = false -> same_col X st st') /\
    (X = ALGO_PFFFT_U \/ X = ALGO_PFFFT_O ->
     pffft_new_setup K (pffftPow2N_of cfg N cplx) (kind_of cplx) = None ->
     same_col X st st') /\
    ((tmeas st' TYPE_MFLOPS X = tmeas st TYPE_MFLOPS X /\ haveAlgo st' X = haveAlgo st X)
     \/ haveAlgo st' X = true)).
  { intros ->.
    split; [intros a Ha; apply same_col_refl|].
    split; [intros _; apply same_col_refl|].
    split; [intros _ _; apply same_col_refl|].
    left. now split. }
  assert (Hran : forall Nmax Nmax' body,
    bbind (uclock_sec clk)
          (fun te => measure BK clk fuel X N cplx Nmax body step_iter te (set_guard Nmax' st)) n
      = Returns (st', n') ->
    compiledInAlgo cfg X = true ->
    (X = ALGO_PFFFT_U \/ X = ALGO_PFFFT_O ->
     pffft_new_setup K (pffftPow2N_of cfg N cplx) (kind_of cplx) <> None) ->
    (forall a, a <> X -> same_col a st st') /\
    (compiledInAlgo cfg X = false -> same_col X st st') /\
    (X = ALGO_PFFFT_U \/ X = ALGO_PFFFT_O ->
     pffft_new_setup K (pffftPow2N_of cfg N cplx) (kind_of cplx) = None ->
     same_col X st st') /\
    ((tmeas st' TYPE_MFLOPS X = tmeas st TYPE_MFLOPS X /\ haveAlgo st' X = haveAlgo st X)
     \/ haveAlgo st' X = true) /\
    exists m : nat,
      (1 <= m)%nat /\
      tmeas st' TYPE_ITER X = F64.of_Z (Z.of_nat m * Z.of_nat (Z.to_nat step_iter))).
  { intros Nmax Nmax' body Hm Hc Hp.
    apply guarded_measure_returns in Hm. destruct Hm as (Hframe & Hflag & Hiter).
    split; [exact Hframe|]. split; [intros Hc'; congruence|].
    split; [intros HX Hnone; now destruct (Hp HX)|].
    split; [now right|exact Hiter]. }
  destruct X; cbn [section_of] in H.
  - (* FFTPack *)
    destruct (Hran _ _ _ H eq_refl) as (H1 & H2 & H3 & H4 & H5).
    + intros [HX|HX]; discriminate.
    + fin5 H1 H2 H3 H4 H5.
  - apply when_returns in H. destruct H as [[Hf ->]|[Hf H]].
    + destruct (Hskip eq_refl) as (H1 & H2 & H3 & H4). fin4 H1 H2 H3 H4.
    + destruct (Hran _ _ _ H Hf) as (H1 & H2 & H3 & H4 & H5).
      * intros [HX|HX]; discriminate.
      * fin5 H1 H2 H3 H4 H5.
  - apply when_returns in H. destruct H as [[Hf ->]|[Hf H]].
    + destruct (Hskip eq_refl) as (H1 & H2 & H3 & H4). fin4 H1 H2 H3 H4.
    + destruct (Hran _ _ _ H Hf) as (H1 & H2 & H3 & H4 & H5).
      * intros [HX|HX]; discriminate.
      * fin5 H1 H2 H3 H4 H5.
  - (* FFTW, second block *)
    apply when_returns in H. destruct H as [[Hf ->]|[Hf H]].
    + destruct (Hskip eq_refl) as (H1 & H2 & H3 & H4). fin4 H1 H2 H3 H4.
    + unfold bench_fftw_auto in H.
      destruct (fftw_auto_flags cfg N withFFTWfullMeas).
      * destruct (Hran _ _ _ H Hf) as (H1 & H2 & H3 & H4 & H5).
        -- intros [HX|HX]; discriminate.
        -- fin5 H1 H2 H3 H4 H5.
      * unfold bret in H. inversion H; subst; clear H.
        split; [|split; [|split; [|split]]].
        -- intros a Ha. unfold same_col. cbn [tmeas haveAlgo set_guard]. split; [|reflexivity].
           intros k. now rewrite !tset_other_algo.
        -- cbn [compiledInAlgo]. congruence.
        -- intros [HX|HX]; discriminate.
        -- left. cbn [tmeas haveAlgo set_guard]. split; [|reflexivity].
           now rewrite !tset_other_type by discriminate.
        -- discriminate.
  - apply when_returns in H. destruct H as [[Hf ->]|[Hf H]].
    + destruct (Hskip eq_refl) as (H1 & H2 & H3 & H4). fin4 H1 H2 H3 H4.
    + destruct (Hran _ _ _ H Hf) as (H1 & H2 & H3 & H4 & H5).
      * intros [HX|HX]; discriminate.
      * fin5 H1 H2 H3 H4 H5.
  - apply when_returns in H. destruct H as [[Hf ->]|[Hf H]].
    + destruct (Hskip eq_refl) as (H1 & H2 & H3 & H4). fin4 H1 H2 H3 H4.
    + destruct (Hran _ _ _ H Hf) as (H1 & H2 & H3 & H4 & H5).
      * intros [HX|HX]; discriminate.
      * fin5 H1 H2 H3 H4 H5.
  - (* PFFFT-U *)
    unfold bench_pffft_u in H.
    apply bbind_returns in H. destruct H as (te & n1 & Hte & H).
    destruct (pffft_new_setup K (pffftPow2N_of cfg N cplx) (kind_of cplx)) as [s|] eqn:Hs.
    + apply measure_returns in H. destruct H as (Hframe & Hflag & Hiter).
      split; [|split; [|split; [|split]]].
      * intros a Ha. apply same_col_trans with (st2 := set_guard (Nmax_of cplx (pffftPow2N_of cfg N cplx)) st);
          [apply same_col_set_guard|now apply Hframe].
      * discriminate.
      * intros _ Hnone. discriminate.
      * now right.
      * discriminate.
    + unfold bret in H. inversion H; subst; clear H.
      split; [intros a Ha; apply same_col_set_guard|].
      split; [intros _; apply same_col_set_guard|].
      split; [intros _ _; apply same_col_set_guard|].
      split; [left; now split|discriminate].
  - (* PFFFT *)
    unfold bench_pffft_o in H.
    apply bbind_returns in H. destruct H as (te & n1 & Hte & H).
    destruct (pffft_new_setup K (pffftPow2N_of cfg N cplx) (kind_of cplx)) as [s|] eqn:Hs.
    + apply measure_returns in H. destruct H as (Hframe & Hflag & Hiter).
      split; [|split; [|split; [|split]]].
      * exact Hframe.
      * discriminate.
      * intros _ Hnone. discriminate.
      * now right.
      * discriminate.
    + unfold bret in H. inversion H; subst; clear H.
      split; [intros a Ha; apply same_col_refl|].
      split; [intros _; apply same_col_refl|].
      split; [intros _ _; apply same_col_refl|].
      split; [left; now split|discriminate].
Qed.

(** The blocks of a list of distinct algorithms, run in a row. *)
Lemma run_sections_returns (step_iter : Z) :
  forall (l : list algo) (st st' : bstate) (n n' : nat),
    NoDup l ->
    run_sections BK cfg clk fuel N cplx withFFTWfullMeas l step_iter st n = Returns (st', n') ->
    forall a,
      (~ In a l -> same_col a st st') /\
      (In a l ->
       exists sa sa' na na',
         section_of BK cfg clk fuel N cplx withFFTWfullMeas a step_iter sa na
           = Returns (sa', na') /\
         same_col a st sa /\ same_col a sa' st').
Proof.
  induction l as [|X l IH]; intros st st' n n' Hnd H a.
  - simpl in H. unfold bret in H. inversion H; subst.
    split; [intros _; apply same_col_refl|intros []].
  - cbn [run_sections] in H. apply bbind_returns in H. destruct H as (st1 & n1 & HX & H).
    inversion Hnd as [|? ? Hni Hnd']; subst.
    destruct (IH st1 st' n1 n' Hnd' H a) as [Hout Hin].
    pose proof (section_effect X step_iter st st1 n n1 HX) as (Hframe & _).
    split.
    + intros Hnot. apply same_col_trans with (st2 := st1).
      * apply Hframe. intros ->. apply Hnot. now left.
      * apply Hout. intros Ha. apply Hnot. now right.
    + intros [->|Ha].
      * exists st, st1, n, n1. split; [exact HX|]. split; [apply same_col_refl|].
        apply Hout. exact Hni.
      * destruct (Hin Ha) as (sa & sa' & na & na' & Hsec & H1 & H2).
        exists sa, sa', na, na'. split; [exact Hsec|]. split; [|exact H2].
        apply same_col_trans with (st2 := st1); [|exact H1].
        apply Hframe. intros ->. contradiction.
Qed.
End SectionEffects.

(** The two loops over the relative columns write entry [K0] of the
    columns that hold a measurement, and nothing else. *)
Lemma relative_fold_frame (h : have_t) (K0 : mtype) (f : table -> algo -> double) :
  K0 <> TYPE_DUR_NS ->
  forall (l : list algo) (tm : table),
    (forall k a, k <> K0 ->
       fold_left (fun tm a => if measured h tm a then tset tm K0 a (f tm a) else tm) l tm k a
       = tm k a) /\
    (forall a, measured h tm a = false -> forall k,
       fold_left (fun tm a => if measured h tm a then tset tm K0 a (f tm a) else tm) l tm k a
       = tm k a).
Proof.
  intros HK0. induction l as [|x l IH]; intros tm; [now split|].
  cbn [fold_left].
  set (tm1 := if measured h tm x then tset tm K0 x (f tm x) else tm).
  assert (Hns : forall a, measured h tm1 a = measured h tm a).
  { intros a. unfold tm1. destruct (measured h tm x); [|reflexivity].
    unfold measured. now rewrite tset_other_type by auto. }
  destruct (IH tm1) as [H1 H2]. split.
  - intros k a Hk. rewrite (H1 k a Hk). unfold tm1.
    destruct (measured h tm x); [|reflexivity]. now apply tset_other_type.
  - intros a Ha k. rewrite (H2 a); [|now rewrite Hns].
    unfold tm1. destruct (measured h tm x) eqn:Ex; [|reflexivity].
    apply tset_other_algo. intros ->. congruence.
Qed.

Lemma relative_columns_frame (h : have_t) (tm : table) :
  (forall k a, k <> TYPE_DUR_FASTEST -> k <> TYPE_REL_PFFFT ->
     relative_pffft h (relative_fastest h tm) k a = tm k a) /\
  (forall a, tm TYPE_DUR_NS a = F64.zero -> forall k,
     relative_pffft h (relative_fastest h tm) k a = tm k a).
Proof.
  assert (Hf : (forall k a, k <> TYPE_DUR_FASTEST -> relative_fastest h tm k a = tm k a) /\
               (forall a, measured h tm a = false -> forall k,
                  relative_fastest h tm k a = tm k a)).
  { unfold relative_fastest. destruct (F64.gtb _ _); [|now split].
    exact (relative_fold_frame h TYPE_DUR_FASTEST
             (fun t a => F64.div (t TYPE_DUR_NS a) (Tfastest_of tm))
             ltac:(discriminate) all_algos tm). }
  destruct Hf as [Hf1 Hf2].
  destruct (relative_fold_frame h TYPE_REL_PFFFT
              (fun t a => F64.div (t TYPE_DUR_NS a) (t TYPE_DUR_NS ALGO_PFFFT_O))
              ltac:(discriminate) all_algos (relative_fastest h tm)) as [Hp1 Hp2].
  fold (relative_pffft h (relative_fastest h tm)) in Hp1, Hp2.
  assert (Hz : forall a, tm TYPE_DUR_NS a = F64.zero -> measured h tm a = false).
  { intros a Ha. unfold measured. rewrite Ha. now destruct (h a). }
  split.
  - intros k a Hk1 Hk2. now rewrite Hp1, Hf1.
  - intros a Ha k. rewrite Hp2.
    + apply Hf2. now apply Hz.
    + unfold measured. rewrite Hf1 by discriminate. rewrite Ha. now destruct (h a).
Qed.

Lemma all_algos_NoDup : NoDup all_algos.
Proof.
  unfold all_algos.
  repeat (constructor; [simpl; intuition discriminate|]). constructor.
Qed.

Lemma all_algos_complete (a : algo) : In a all_algos.
Proof. destruct a; simpl; tauto. Qed.

(** The block of each algorithm, seen from the table [benchmark_ffts]
    returns. *)
Lemma benchmark_ffts_columns {K} (BK : BenchAPI.t K) cfg clk fuel junk N cplx w iterCal
    (h0 : have_t) (n n' : nat) (tm : table) (h : have_t) :
  benchmark_ffts BK cfg clk fuel junk N cplx w iterCal h0 n = Returns (tm, h, n') ->
  exists step_iter,
    step_iter_of (numIter_of max_test_duration iterCal N) = Some step_iter /\
    forall a,
    exists sa sa' na na' st,
      section_of BK cfg clk fuel N cplx w a step_iter sa na = Returns (sa', na') /\
      (forall k, tmeas sa k a = F64.zero) /\ haveAlgo sa a = h0 a /\
      same_col a sa' st /\ h = haveAlgo st /\
      (forall k, k <> TYPE_DUR_FASTEST -> k <> TYPE_REL_PFFFT -> tm k a = tmeas st k a) /\
      (tmeas st TYPE_DUR_NS a = F64.zero -> forall k, tm k a = tmeas st k a).
Proof.
  intros H. apply benchmark_ffts_returns in H.
  destruct H as (step_iter & st & Hstep & Hrun & -> & ->).
  exists step_iter. split; [exact Hstep|]. intros a.
  destruct (run_sections_returns BK cfg clk fuel N cplx w step_iter all_algos _ _ _ _
              all_algos_NoDup Hrun a) as [_ Hin].
  destruct (Hin (all_algos_complete a)) as (sa & sa' & na & na' & Hsec & [H0 H0'] & Hpost).
  exists sa, sa', na, na', st.
  destruct (relative_columns_frame (haveAlgo st) (tmeas st)) as [Hr1 Hr2].
  split; [exact Hsec|]. split; [intros k; now rewrite H0|]. split; [exact H0'|].
  split; [exact Hpost|]. split; [reflexivity|]. split.
  - intros k Hk1 Hk2. now apply Hr1.
  - intros Hz k. now apply Hr2.
Qed.

(** C8, as the code has it.  In the table [benchmark_ffts] returns, the
    cell of an algorithm that is not compiled in, and the cells of PFFFT
    when [pffft_new_setup] returns [NULL], hold [0.0] in every field, and
    the entry of [haveAlgo] is what it was before the call: the zero the
    table is cleared with is the only mark.  A cell whose MFlops entry is
    not zero belongs to an algorithm that is compiled in, that found its
    setup, and whose [haveAlgo] entry is set. *)
Theorem unmeasured_cells_are_zero :
  forall (K : ValKernel) (BK : BenchAPI.t K) (cfg : build) (clk : nat -> double)
         (fuel : nat) (junk : float) (N : Z) (cplx withFFTWfullMeas : bool)
         (iterCal : double) (haveAlgo0 : have_t) (n n' : nat) (tm : table) (h : have_t),
    benchmark_ffts BK cfg clk fuel junk N cplx withFFTWfullMeas iterCal haveAlgo0 n
      = Returns (tm, h, n') ->
    (forall a, compiledInAlgo cfg a = false ->
       (forall k, tm k a = F64.zero) /\ h a = haveAlgo0 a) /\
    (pffft_new_setup K (pffftPow2N_of cfg N cplx) (kind_of cplx) = None ->
     forall a, a = ALGO_PFFFT_U \/ a = ALGO_PFFFT_O ->
       (forall k, tm k a = F64.zero) /\ h a = haveAlgo0 a) /\
    (forall a, tm TYPE_MFLOPS a <> F64.zero ->
       h a = true /\ compiledInAlgo cfg a = true /\
       (a = ALGO_PFFFT_U \/ a = ALGO_PFFFT_O ->
        pffft_new_setup K (pffftPow2N_of cfg N cplx) (kind_of cplx) <> None)).
Proof.
  intros K BK cfg clk fuel junk N cplx w iterCal h0 n n' tm h H.
  apply benchmark_ffts_columns in H. destruct H as (step_iter & _ & Hcols).
  assert (Huntouched : forall a sa sa' st,
            (forall k, tmeas sa k a = F64.zero) -> haveAlgo sa a = h0 a ->
            same_col a sa sa' -> same_col a sa' st -> h = haveAlgo st ->
            (tmeas st TYPE_DUR_NS a = F64.zero -> forall k, tm k a = tmeas st k a) ->
            (forall k, tm k a = F64.zero) /\ h a = h0 a).
  { intros a sa sa' st Hz Hh0 [Hs1 Hs1'] [Hs2 Hs2'] -> Hrel.
    assert (Hst : forall k, tmeas st k a = F64.zero) by (intros k; now rewrite Hs2, Hs1).
    split; [|congruence]. intros k. rewrite Hrel; auto. }
  assert (H1 : forall a, compiledInAlgo cfg a = false ->
                 (forall k, tm k a = F64.zero) /\ h a = h0 a).
  { intros a Ha.
    destruct (Hcols a) as (sa & sa' & na & na' & st & Hsec & Hz & Hh0 & Hpost & Hh & _ & Hrel).
    apply section_effect in Hsec. destruct Hsec as (_ & Habsent & _).
    exact (Huntouched a sa sa' st Hz Hh0 (Habsent Ha) Hpost Hh Hrel). }
  assert (H2 : pffft_new_setup K (pffftPow2N_of cfg N cplx) (kind_of cplx) = None ->
               forall a, a = ALGO_PFFFT_U \/ a = ALGO_PFFFT_O ->
                 (forall k, tm k a = F64.zero) /\ h a = h0 a).
  { intros Hnone a Ha.
    destruct (Hcols a) as (sa & sa' & na & na' & st & Hsec & Hz & Hh0 & Hpost & Hh & _ & Hrel).
    apply section_effect in Hsec. destruct Hsec as (_ & _ & Hnoset & _).
    exact (Huntouched a sa sa' st Hz Hh0 (Hnoset Ha Hnone) Hpost Hh Hrel). }
  split; [exact H1|]. split; [exact H2|].
  intros a Hmf. split; [|split].
  - destruct (Hcols a) as (sa & sa' & na & na' & st & Hsec & Hz & Hh0 & [Hp Hp'] & Hh & Hk & _).
    apply section_effect in Hsec. destruct Hsec as (_ & _ & _ & [[Hsame _]|Hset] & _).
    + exfalso. apply Hmf.
      rewrite Hk by discriminate. now rewrite Hp, Hsame.
    + subst h. now rewrite Hp'.
  - destruct (compiledInAlgo cfg a) eqn:E; [reflexivity|].
    destruct (H1 a E) as [Hz _]. now destruct Hmf.
  - intros Ha Hnone. destruct (H2 Hnone a Ha) as [Hz _]. now destruct Hmf.
Qed.

Lemma unmeasured_cells_are_zero_witness :
  match benchmark_ffts bench_512 plain_build second_clock 1 F32.zero 64 false false
          (F64.of_Z 1000) (fun _ => false) 0%nat return Prop with
  | Returns (tm, h, _) =>
      (forall a, compiledInAlgo plain_build a = false ->
         (forall k, tm k a = F64.zero) /\ h a = false) /\
      (pffft_new_setup kernel_512 (pffftPow2N_of plain_build 64 false) (kind_of false) = None ->
       forall a, a = ALGO_PFFFT_U \/ a = ALGO_PFFFT_O ->
         (forall k, tm k a = F64.zero) /\ h a = false) /\
      (forall a, tm TYPE_MFLOPS a <> F64.zero ->
         h a = true /\ compiledInAlgo plain_build a = true /\
         (a = ALGO_PFFFT_U \/ a = ALGO_PFFFT_O ->
          pffft_new_setup kernel_512 (pffftPow2N_of plain_build 64 false) (kind_of false)
          <> None))
  | _ => False
  end.
Proof.
  pose proof (unmeasured_cells_are_zero kernel_512 bench_512 plain_build second_clock
                1%nat F32.zero 64 false false (F64.of_Z 1000) (fun _ => false) 0%nat) as H.
  assert (E : exists r, benchmark_ffts bench_512 plain_build second_clock 1 F32.zero 64
                          false false (F64.of_Z 1000) (fun _ => false) 0%nat = Returns r).
  { vm_compute. eexists. reflexivity. }
  destruct E as [[[tm h] n'] E]. rewrite E. exact (H n' tm h E).
Defined.

(** C8 as stated fails.  A run with [--non-pow2] on a PFFFT that has no
    plan for size 160: the cell of PFFFT-U at [(160, real)] holds [+0.0]
    in all seven fields, none of them negative, and [haveAlgo] of PFFFT-U
    is set (by size 96): nothing tells the cell from a measurement of
    zero. *)
Lemma unprepared_cell_is_plain_zero :
  pffft_new_setup kernel_96_512 (pffftPow2N_of plain_build 160 false) (kind_of false) = None /\
  match non_pow2_run return Prop with
  | (_, Returns (rows, h)) =>
      match lookup_row 160 false rows return Prop with
      | Some tm =>
          cell tm ALGO_PFFFT_U = repeat (S754_zero false) 7 /\
          forallb (fun v => negb (F64.ltb v F64.zero)) (cell tm ALGO_PFFFT_U) = true /\
          h ALGO_PFFFT_U = true
      | None => False
      end
  | _ => False
  end.
Proof.
  vm_compute. repeat split; reflexivity.
Qed.

(** ** The rows of a run *)






Section RowsOfMain.
Context {K : ValKernel} (BK : BenchAPI.t K).
Variable cfg : build.
Variable o : options.
Variable clk : nat -> double.
Variable fuel : nat.
Variable junk : float.




End RowsOfMain.

Lemma main_returns {K} (BK : BenchAPI.t K) cfg o rand clk fuel junk
    (out : list msg) (rows : list row) (h : have_t) :
  main BK cfg o rand clk fuel junk = (out, Returns (rows, h)) ->
  exists n', timed_part BK cfg o clk fuel junk 0%nat = Returns (rows, h, n').
Proof.
  unfold main.
  destruct (bind _ _) as [out' [[]|code| | |]]; try (intros H; inversion H; fail).
  destruct (timed_part BK cfg o clk fuel junk 0%nat) as [[[rows' h'] n']| | | |];
    intros H; inversion H; subst.
  now exists n'.
Qed.



Lemma bind_ret_tt {B} (k : unit -> V B) : bind (ret tt) k = k tt.
Proof. unfold bind, ret. now destruct (k tt). Qed.




(** The default run on a PFFFT with plans for sizes 32 and 512, with a
    clock that advances one second per reading: the row of [(16, real)]
    is filled, with 55 iterations of FFTPACK and of PFFFT-U. *)
Lemma default_run_measures_16 :
  match default_run return Prop with
  | (_, Returns (rows, h)) =>
      match lookup_row 16 false rows return Prop with
      | Some tm =>
          tm TYPE_ITER ALGO_FFTPACK = F64.of_Z 55 /\
          tm TYPE_ITER ALGO_PFFFT_U = F64.of_Z 55 /\
          F64.gtb (tm TYPE_MFLOPS ALGO_FFTPACK) F64.zero = true
      | None => False
      end
  | _ => False
  end.
Proof.
  vm_compute. repeat split; reflexivity.
Qed.



(** ** Doubling in IEEE arithmetic

    Multiplying an operand by two adds one to its exponent; away from
    underflow the rounded product and the rounded quotient follow by one
    exponent too, or overflow. *)

Section Doubling.
Variables prec emax : Z.







End Doubling.

(** ** The iteration targets of benchmark_ffts *)

Lemma Log2_loop_log2 :
  forall (fuel : nat) (v r : Z),
    0 < v < 2 ^ Z.of_nat fuel -> Log2_loop fuel v r = r + Z.log2 v.
Proof.
  induction fuel as [|fuel IH]; intros v r Hv.
  - simpl in Hv. lia.
  - cbn [Log2_loop].
    assert (Hs : Z.shiftr v 1 = v / 2) by (rewrite Z.shiftr_div_pow2 by lia; reflexivity).
    destruct (Z.eqb_spec (Z.shiftr v 1) 0) as [E|E].
    + rewrite Hs in E. assert (v = 1) by (apply Z.div_small_iff in E; lia). subst v.
      simpl. lia.
    + assert (Hv2 : 2 <= v).
      { destruct (Z_lt_le_dec v 2) as [Hlt|]; [|assumption].
        exfalso. apply E. rewrite Hs. apply Z.div_small. lia. }
      rewrite IH.
      * rewrite Z.log2_shiftr by lia.
        assert (1 <= Z.log2 v) by (apply Z.log2_le_pow2; simpl; lia). lia.
      * rewrite Hs. split; [apply Z.div_str_pos; lia|].
        apply Z.div_lt_upper_bound; [lia|].
        rewrite Nat2Z.inj_succ, Z.pow_succ_r in Hv by lia. lia.
Qed.

Lemma Log2_is_log2 (v : Z) : 0 < v < 2 ^ 32 -> Log2 v = Z.log2 v.
Proof.
  intros Hv. unfold Log2. rewrite Z.mod_small by lia.
  now rewrite (Log2_loop_log2 32 v 0 Hv).
Qed.

Lemma floor_double_spec (s : bool) (m : positive) (e f : Z) :
  floor_double (S754_finite s m e) = Some f ->
  let v := if s then Zneg m else Zpos m in
  (0 <= e -> f = v * 2 ^ e) /\
  (e < 0 -> f * 2 ^ (- e) <= v < (f + 1) * 2 ^ (- e)).
Proof.
  simpl. intros H. inversion H; subst; clear H. split.
  - intros He. now apply Z.shiftl_mul_pow2.
  - intros He. rewrite Z.shiftl_div_pow2 by lia.
    assert (Hp : 0 < 2 ^ (- e)) by (apply Z.pow_pos_nonneg; lia).
    set (v := if s then Z.neg m else Z.pos m).
    pose proof (Z.mul_div_le v (2 ^ (- e)) Hp).
    pose proof (Z.mul_succ_div_gt v (2 ^ (- e)) Hp). lia.
Qed.












(** The targets of the witness: 34 iterations, and 69 with twice the
    budget. *)
Lemma iteration_targets_example :
  max_iter_of (numIter_of max_test_duration (F64.of_Z 2359296) 1024) = Some 34 /\
  step_iter_of (numIter_of max_test_duration (F64.of_Z 2359296) 1024) = Some 1 /\
  max_iter_of (numIter_of (F64.mul (F64.of_Z 2) max_test_duration) (F64.of_Z 2359296) 1024)
  = Some 69.
Proof. vm_compute. repeat split. Qed.

(** ** The targets with the real logarithm *)








(** * Further properties of the harness *)

(** ** More of the validation *)

Lemma bind_fst_snd {A B} (c : V A) (k : A -> V B) (a : A) :
  snd c = Returns a -> bind c k = (fst c ++ fst (k a), snd (k a)).
Proof.
  destruct c as [l r]. simpl. intros ->. now destruct (k a).
Qed.

Lemma validate_with_setup_returns_or_stops (K : ValKernel) (s : Setup K) (N : Z)
    (cplx : bool) (rand : nat -> Z) :
  returns_or_stops (snd (validate_with_setup K s N cplx rand)).
Proof.
  unfold validate_with_setup.
  apply bind_returns_or_stops; [apply validate_pass_returns_or_stops|]. intros [] _.
  apply bind_returns_or_stops; [apply validate_pass_returns_or_stops|]. intros [] _.
  left. now exists tt.
Qed.

Lemma pffft_validate_N_returns_or_stops (K : ValKernel) (rand : nat -> Z) (N : Z)
    (cplx : bool) :
  returns_or_stops (snd (pffft_validate_N K rand N cplx)).
Proof.
  unfold pffft_validate_N. destruct (pffft_new_setup K N (kind_of cplx)) as [s|].
  - apply validate_with_setup_returns_or_stops.
  - left. now exists tt.
Qed.

(** X1.  The validation ends in one of three ways, whatever the kernels
    compute: it returns, it leaves through [exit(1)], or an [assert]
    aborts the process.  No size of the sweep can end it otherwise. *)
Theorem pffft_validate_outcomes :
  forall (K : ValKernel) (rand : Z -> nat -> Z) (cplx : bool),
    let r := snd (pffft_validate K rand cplx) in
    r = Returns tt \/ r = Exits 1 \/ r = Aborts.
Proof.
  intros K rand cplx r.
  assert (H : returns_or_stops r).
  { unfold r, pffft_validate. induction Ntest as [|N sizes IH]; cbn [validate_sizes].
    - left. now exists tt.
    - apply bind_returns_or_stops; [|intros [] _; exact IH].
      destruct ((N =? 16) && negb cplx).
      + left. now exists tt.
      + apply pffft_validate_N_returns_or_stops. }
  destruct H as [[[] H]|[H|H]]; auto.
Qed.

(** X2.  Sizes PFFFT has no setup for are skipped: each one prints its
    "Skipping" line and the sweep goes on.  When no size has a setup the
    validation returns, having printed one line per size it calls
    [pffft_validate_N] for, in order. *)
Theorem unsupported_sizes_are_skipped :
  forall (K : ValKernel) (rand : Z -> nat -> Z) (cplx : bool) (sizes : list Z),
    (forall N, In N sizes -> pffft_new_setup K N (kind_of cplx) = None) ->
    validate_sizes K rand cplx sizes
    = (map MsgSkipping (validated_sizes cplx sizes), Returns tt).
Proof.
  intros K rand cplx. induction sizes as [|N sizes IH]; intros Hnone; [reflexivity|].
  cbn [validate_sizes validated_sizes filter].
  rewrite IH by (intros M HM; apply Hnone; now right).
  fold (validated_sizes cplx sizes).
  destruct ((N =? 16) && negb cplx); cbn [negb].
  - reflexivity.
  - unfold pffft_validate_N. rewrite (Hnone N) by now left. reflexivity.
Qed.

Lemma unsupported_sizes_are_skipped_witness :
  pffft_validate (toy_kernel (fun _ => false)) toy_rand_all false
  = (map MsgSkipping (tl Ntest), Returns tt).
Proof.
  apply (unsupported_sizes_are_skipped (toy_kernel (fun _ => false)) toy_rand_all false Ntest).
  intros N _. reflexivity.
Defined.

(** The first cell whose difference to the reference is not below the
    tolerance ends the loop of the forward check through [exit(1)]. *)
Lemma forward_check_exits (N : Z) (cplx : bool) (ref out : list float) (ref_max : float) :
  forall (ks : list nat) (k : nat),
    In k ks ->
    forward_mismatch ref_max (rd ref k) (rd out k) = true ->
    let c := for_each ks (fun k =>
               if forward_mismatch ref_max (rd ref k) (rd out k)
               then printf (MsgForwardMismatch cplx N) ;; exit 1
               else ret tt) in
    c = ([MsgForwardMismatch cplx N], Exits 1).
Proof.
  induction ks as [|j ks IH]; intros k Hk Hbad; [contradiction|].
  cbn [for_each].
  destruct (forward_mismatch ref_max (rd ref j) (rd out j)) eqn:Ej.
  - reflexivity.
  - destruct Hk as [->|Hk]; [congruence|].
    cbv zeta. rewrite bind_ret_tt. exact (IH k Hk Hbad).
Qed.


(** The asserts print nothing. *)
Lemma bind_silent {A B} (c : V A) (k : A -> V B) :
  fst c = [] -> (forall a, fst (k a) = []) -> fst (bind c k) = [].
Proof.
  destruct c as [l [a| | | |]]; simpl; intros -> Hk; try reflexivity.
  specialize (Hk a). now destruct (k a).
Qed.

Lemma assert_same_silent (N : Z) (cplx : bool) (a b : list float) :
  fst (assert_same N cplx a b) = [].
Proof.
  unfold assert_same. induction (seq 0 (Nfloat_of N cplx)) as [|k ks IH]; [reflexivity|].
  cbn [for_each]. apply bind_silent; [|intros _; exact IH].
  unfold assert. now destruct (F32.eqb _ _).
Qed.

Lemma forward_stage_silent (K : ValKernel) (s : Setup K) (N : Z) (cplx : bool)
    (pass : Z) (inp : list float) :
  fst (forward_stage K s N cplx pass inp) = [].
Proof.
  unfold forward_stage. cbv zeta.
  apply bind_silent; [apply assert_same_silent|]. intros _.
  destruct (pass =? 0); [|reflexivity].
  apply bind_silent; [apply assert_same_silent|]. intros _. reflexivity.
Qed.

(** X3.  A forward transform that differs from the FFTPACK reference is
    fatal.  When the transforms of pass 0 agree with each other (the
    asserts of the forward stage hold) and some cell of the output is
    not within [1e-3 * ref_max] of the reference, the validation of that
    size prints the mismatch line and leaves through [exit(1)]: nothing
    later in [pffft_validate_N] runs. *)
Theorem forward_mismatch_is_fatal :
  forall (K : ValKernel) (rand : nat -> Z) (N : Z) (cplx : bool) (s : Setup K)
         (tmp out : list float) (k : nat),
    pffft_new_setup K N (kind_of cplx) = Some s ->
    let inp := random_input K N cplx rand in
    let ref := reference K N cplx inp in
    snd (forward_stage K s N cplx 0 inp) = Returns (tmp, out) ->
    (k < Nfloat_of N cplx)%nat ->
    forward_mismatch (ref_max_of N cplx ref) (rd ref k) (rd out k) = true ->
    pffft_validate_N K rand N cplx = ([MsgForwardMismatch cplx N], Exits 1).
Proof.
  intros K rand N cplx s tmp out k Hs inp ref Hf Hk Hbad.
  unfold pffft_validate_N. rewrite Hs. unfold validate_with_setup.
  fold inp. fold ref.
  assert (Hpass : validate_pass K s N cplx inp ref 0
                  = ([MsgForwardMismatch cplx N], Exits 1)).
  { unfold validate_pass.
    rewrite (bind_fst_snd _ _ _ Hf), forward_stage_silent.
    unfold forward_check.
    rewrite (forward_check_exits N cplx ref out (ref_max_of N cplx ref)
               (seq 0 (Nfloat_of N cplx)) k); [reflexivity| |exact Hbad].
    apply in_seq. lia. }
  now rewrite Hpass.
Qed.

Lemma forward_mismatch_is_fatal_witness :
  pffft_validate_N wrong_forward_kernel toy_rand 32 false
  = ([MsgForwardMismatch false 32], Exits 1).
Proof.
  apply (forward_mismatch_is_fatal wrong_forward_kernel toy_rand 32 false PFFFT_REAL
           (repeat F32.zero 32) (repeat F32.zero 32) 0%nat).
  - reflexivity.
  - vm_compute. reflexivity.
  - vm_compute. lia.
  - vm_compute. reflexivity.
Defined.

(** X4.  The validation comes first and gates the measurements: [main]
    validates the complex domain, then the real one, and only then
    calibrates and measures.  When the validation does not return, [main]
    ends the way the validation ended, with the output of the validation
    and without rows. *)
Theorem failed_validation_ends_run :
  forall (K : ValKernel) (BK : BenchAPI.t K) (cfg : build) (o : options)
         (rand : bool -> Z -> nat -> Z) (clk : nat -> double) (fuel : nat) (junk : float),
    let v := (pffft_validate K (rand true) true ;; pffft_validate K (rand false) false) in
    snd v <> Returns tt ->
    fst (main BK cfg o rand clk fuel junk) = fst v /\
    (forall rows, snd (main BK cfg o rand clk fuel junk) <> Returns rows) /\
    (forall code, snd v = Exits code -> snd (main BK cfg o rand clk fuel junk) = Exits code) /\
    (snd v = Aborts -> snd (main BK cfg o rand clk fuel junk) = Aborts).
Proof.
  intros K BK cfg o rand clk fuel junk v Hv. unfold main. fold v.
  destruct v as [out [[]|code| | |]]; cbn [fst snd] in *.
  - now contradiction Hv.
  - split; [reflexivity|]. split; [discriminate|]. split; [intros c H; inversion H; reflexivity|discriminate].
  - split; [reflexivity|]. split; [discriminate|]. split; [discriminate|reflexivity].
  - split; [reflexivity|]. split; [discriminate|]. split; discriminate.
  - split; [reflexivity|]. split; [discriminate|]. split; discriminate.
Qed.

Lemma failed_validation_ends_run_witness :
  main (toy_bench wrong_forward_kernel (fun _ => ident_call)) plain_build default_options
       (fun _ => toy_rand_all) second_clock 2 F32.zero
  = ([MsgForwardMismatch true 16], Exits 1).
Proof.
  pose proof (failed_validation_ends_run wrong_forward_kernel
                (toy_bench wrong_forward_kernel (fun _ => ident_call)) plain_build
                default_options (fun _ => toy_rand_all) second_clock 2%nat F32.zero) as H.
  cbv beta zeta in H.
  assert (E : (pffft_validate wrong_forward_kernel toy_rand_all true ;;
               pffft_validate wrong_forward_kernel toy_rand_all false)
              = ([MsgForwardMismatch true 16], Exits 1)).
  { vm_compute. reflexivity. }
  rewrite E in H. cbn [fst snd] in H.
  destruct (H ltac:(discriminate)) as (Hout & _ & Hexit & _).
  specialize (Hexit 1 eq_refl).
  destruct (main _ _ _ _ _ _ _) as [out r]. cbn [fst snd] in *. now subst.
Defined.

(** ** More of the timed loops *)

(** Running [a + c] times through the body is running [a] times, then
    [c] times. *)
Lemma step_block_split (Nmax : Z) (body : list op) :
  forall (a c : nat) (b : bufs) (iter : Z) (b2 : bufs) (it2 : Z),
    step_block (a + c) Nmax body b iter = Returns (b2, it2) ->
    exists b1 it1,
      step_block a Nmax body b iter = Returns (b1, it1) /\
      step_block c Nmax body b1 it1 = Returns (b2, it2).
Proof.
  induction a as [|a IH]; intros c b iter b2 it2 H.
  - exists b, iter. now split.
  - cbn [Nat.add step_block] in H |- *.
    destruct (run_ops Nmax body b) as [b'| | | |]; try discriminate.
    exact (IH c b' (iter + 1) b2 it2 H).
Qed.

Lemma step_block_resume (Nmax : Z) (body : list op) :
  forall (a c : nat) (b : bufs) (iter : Z) (b1 : bufs) (it1 : Z),
    step_block a Nmax body b iter = Returns (b1, it1) ->
    step_block (a + c) Nmax body b iter = step_block c Nmax body b1 it1.
Proof.
  induction a as [|a IH]; intros c b iter b1 it1 H.
  - simpl in H. inversion H; subst. reflexivity.
  - cbn [Nat.add step_block] in H |- *.
    destruct (run_ops Nmax body b) as [b'| | | |]; try discriminate.
    exact (IH c b' (iter + 1) b1 it1 H).
Qed.

(** X5.  In the checked loop bodies a call that leaves the guard cell
    different from [checkVal] aborts the process, in whichever round and
    whichever run through the body it happens: when [r] whole rounds and
    [k] more runs through the body have passed and the call [f] of the
    next run breaks the guard, the loop aborts there, before that run
    ends and before the clock is read again, and returns no count. *)
Theorem guard_violation_aborts :
  forall {K : ValKernel} (BK : BenchAPI.t K) (N log2N : Z) (cplx : bool) (fl : fftw_flags)
         (s : Setup K) (body pre post : list op) (f : call)
         (clk : nat -> double) (Nmax step : Z) (tstop : double)
         (r k fuel : nat) (b b1 b2 : bufs) (iter iter1 : Z) (n : nat),
    In body (checked_bodies BK N log2N cplx fl s) ->
    body = pre ++ Call f :: post ->
    (r < fuel)%nat ->
    (k < Z.to_nat step)%nat ->
    (forall j, (j < r)%nat -> F64.ltb (clk (n + j)%nat) tstop = true) ->
    step_block (r * Z.to_nat step + k) Nmax body b iter = Returns (b1, iter1) ->
    run_ops Nmax pre b1 = Returns b2 ->
    F32.eqb (Xbuf (f b2) Nmax) checkVal = false ->
    timed_loop fuel clk Nmax body step tstop b iter n = Aborts.
Proof.
  intros K BK N log2N cplx fl s body pre post f clk Nmax step tstop r k fuel b b1 b2
         iter iter1 n Hin Hbody Hr Hk Hbelow Hpass Hpre Hbad.
  assert (Hg : guarded body = true).
  { destruct (bodies_guarded BK N cplx fl s) as (H1 & _ & H3 & _ & H5 & H6 & H7 & _).
    destruct (bodies_guarded BK log2N cplx fl s) as (_ & H2 & _ & H4 & _).
    unfold checked_bodies in Hin. simpl in Hin.
    destruct Hin as [<-|[<-|[<-|[<-|[<-|[<-|[<-|[]]]]]]]]; assumption. }
  assert (Hrun : run_ops Nmax body b1 = Aborts).
  { subst body. exact (guarded_body_aborts Nmax pre f post b1 b2 Hg Hpre Hbad). }
  clear Hin Hpre Hbad Hg Hbody.
  revert fuel b iter n Hr Hbelow Hpass.
  induction r as [|r IH]; intros fuel b iter n Hr Hbelow Hpass.
  - destruct fuel as [|fuel]; [lia|]. rewrite timed_loop_S.
    cbn [Nat.mul Nat.add] in Hpass.
    replace (Z.to_nat step) with (k + S (Z.to_nat step - S k))%nat by lia.
    rewrite (step_block_resume Nmax body k _ b iter b1 iter1 Hpass).
    cbn [step_block]. now rewrite Hrun.
  - destruct fuel as [|fuel]; [lia|]. rewrite timed_loop_S.
    replace (S r * Z.to_nat step + k)%nat
      with (Z.to_nat step + (r * Z.to_nat step + k))%nat in Hpass by lia.
    apply step_block_split in Hpass. destruct Hpass as (b' & it' & Hfirst & Hrest).
    rewrite Hfirst.
    assert (H0 : F64.ltb (clk n) tstop = true).
    { specialize (Hbelow 0%nat ltac:(lia)). now rewrite Nat.add_0_r in Hbelow. }
    rewrite H0.
    apply (IH fuel b' it' (S n)); [lia| |exact Hrest].
    intros j Hj. replace (S n + j)%nat with (n + S j)%nat by lia. apply Hbelow. lia.
Qed.

Lemma guard_violation_aborts_witness :
  let BK := late_clobbering_bench kernel_all 32 in
  let b := {| Xbuf := store (bench_input F32.zero 32) 32 checkVal;
              Ybuf := fun _ => F32.zero; Zbuf := fun _ => F32.zero |} in
  timed_loop 3 second_clock 32 (fftpack_body BK 16 true) 2 (F64.of_Z 5) b 0 0%nat = Aborts.
Proof.
  intros BK b.
  apply (guard_violation_aborts BK 16 4 true FFTW_ESTIMATE (16, PFFFT_COMPLEX)
           (fftpack_body BK 16 true)
           [Check; Call (BenchAPI.cfftf BK 16); Check] [Check]
           (BenchAPI.cfftb BK 16) second_clock 32 2 (F64.of_Z 5)
           1%nat 1%nat 3%nat b (Nat.iter 3 (late_clobber 32) b)
           (Nat.iter 3 (late_clobber 32) b) 0 3 0%nat).
  - left. reflexivity.
  - reflexivity.
  - lia.
  - simpl. lia.
  - intros j Hj. assert (j = 0%nat) by lia. subst j. vm_compute. reflexivity.
  - reflexivity.
  - reflexivity.
  - vm_compute. reflexivity.
Defined.

Lemma run_ops_keeps_guard (Nmax : Z) :
  forall (body : list op) (b : bufs),
    keeps_guard Nmax body ->
    F32.eqb (Xbuf b Nmax) checkVal = true ->
    exists b', run_ops Nmax body b = Returns b' /\ Xbuf b' Nmax = Xbuf b Nmax.
Proof.
  induction body as [|o body IH]; intros b Hk Hg.
  - exists b. now split.
  - inversion Hk as [|? ? Ho Hrest]; subst. cbn [run_ops].
    destruct o as [|f]; cbn [run_op].
    + rewrite Hg. exact (IH b Hrest Hg).
    + destruct (IH (f b) Hrest) as (b' & Hrun & Hcell).
      * now rewrite Ho.
      * exists b'. split; [exact Hrun|]. now rewrite Hcell, Ho.
Qed.

Lemma step_block_keeps_guard (Nmax : Z) (body : list op) :
  keeps_guard Nmax body ->
  forall (k : nat) (b : bufs) (iter : Z),
    F32.eqb (Xbuf b Nmax) checkVal = true ->
    exists b', step_block k Nmax body b iter = Returns (b', iter + Z.of_nat k) /\
               Xbuf b' Nmax = Xbuf b Nmax.
Proof.
  intros Hk. induction k as [|k IH]; intros b iter Hg.
  - exists b. split; [simpl; f_equal; f_equal; lia|reflexivity].
  - cbn [step_block].
    destruct (run_ops_keeps_guard Nmax body b Hk Hg) as (b1 & -> & Hc1).
    destruct (IH b1 (iter + 1)) as (b' & Hrun & Hc').
    + now rewrite Hc1.
    + exists b'. split; [|now rewrite Hc', Hc1].
      rewrite Hrun. f_equal. f_equal. lia.
Qed.

(** X6.  No false alarm: when the calls of a loop body leave the guard
    cell alone and the guard holds [checkVal] on entry, no check fails.
    The loop runs until the first reading of the clock that is not below
    [tstop], returns [step] iterations per round, and the guard still
    holds its value. *)
Theorem kept_guard_never_aborts :
  forall (clk : nat -> double) (Nmax : Z) (body : list op) (step : Z) (tstop : double)
         (m fuel : nat) (b : bufs) (iter : Z) (n : nat),
    keeps_guard Nmax body ->
    F32.eqb (Xbuf b Nmax) checkVal = true ->
    (1 <= m <= fuel)%nat ->
    (forall j, (j < m - 1)%nat -> F64.ltb (clk (n + j)%nat) tstop = true) ->
    F64.ltb (clk (n + m - 1)%nat) tstop = false ->
    exists b',
      timed_loop fuel clk Nmax body step tstop b iter n =
      Returns (b', iter + Z.of_nat m * Z.of_nat (Z.to_nat step), clk (n + m - 1)%nat,
               (n + m)%nat) /\
      Xbuf b' Nmax = Xbuf b Nmax.
Proof.
  intros clk Nmax body step tstop m fuel b iter n Hk.
  revert fuel b iter n.
  induction m as [|m IH]; intros fuel b iter n Hg Hm Hbelow Hstop; [lia|].
  destruct fuel as [|fuel]; [lia|]. rewrite timed_loop_S.
  destruct (step_block_keeps_guard Nmax body Hk (Z.to_nat step) b iter Hg)
    as (b1 & -> & Hc1).
  destruct m as [|m].
  - replace (n + 1 - 1)%nat with n in * by lia. rewrite Hstop.
    exists b1. split; [|exact Hc1].
    replace (iter + Z.of_nat 1 * Z.of_nat (Z.to_nat step))
      with (iter + Z.of_nat (Z.to_nat step)) by lia.
    now replace (n + 1)%nat with (S n) by lia.
  - assert (H0 : F64.ltb (clk n) tstop = true).
    { specialize (Hbelow 0%nat ltac:(lia)). now rewrite Nat.add_0_r in Hbelow. }
    rewrite H0.
    destruct (IH fuel b1 (iter + Z.of_nat (Z.to_nat step)) (S n)) as (b' & Hb' & Hc').
    + now rewrite Hc1.
    + lia.
    + intros j Hj. replace (S n + j)%nat with (n + S j)%nat by lia. apply Hbelow. lia.
    + replace (S n + S m - 1)%nat with (n + S (S m) - 1)%nat by lia. exact Hstop.
    + exists b'. split; [|now rewrite Hc', Hc1]. rewrite Hb'.
      replace (iter + Z.of_nat (Z.to_nat step) + Z.of_nat (S m) * Z.of_nat (Z.to_nat step))
        with (iter + Z.of_nat (S (S m)) * Z.of_nat (Z.to_nat step)) by lia.
      replace (S n + S m - 1)%nat with (n + S (S m) - 1)%nat by lia.
      now replace (S n + S m)%nat with (n + S (S m))%nat by lia.
Qed.

Lemma kept_guard_never_aborts_witness :
  let b := {| Xbuf := store (bench_input F32.zero 32) 32 checkVal;
              Ybuf := fun _ => F32.zero; Zbuf := fun _ => F32.zero |} in
  exists b',
    timed_loop 3 second_clock 32 (fftpack_body bench_all 16 true) 5 (F64.lit 3 2) b 0 0%nat
    = Returns (b', 0 + Z.of_nat 3 * Z.of_nat (Z.to_nat 5), second_clock (0 + 3 - 1), (0 + 3)%nat) /\
    Xbuf b' 32 = Xbuf b 32.
Proof.
  intros b.
  apply (kept_guard_never_aborts second_clock 32 (fftpack_body bench_all 16 true) 5
           (F64.lit 3 2) 3%nat 3%nat b 0 0%nat).
  - repeat constructor.
  - vm_compute. reflexivity.
  - lia.
  - intros j Hj. destruct j as [|[|j]]; [vm_compute; reflexivity| vm_compute; reflexivity|lia].
  - vm_compute. reflexivity.
Defined.

(** X7.  The guard cell lies inside the buffer.  [X] has [Nfloat + 1]
    cells, and each of the three indices [Nmax] the blocks of
    [benchmark_ffts] put the guard at (for the size [N], for the next
    power of two, for the padded size of PFFFT) is at most [Nfloat]. *)
Theorem guard_cell_within_buffer :
  forall {K : ValKernel} (BK : BenchAPI.t K) (cfg : build) (N : Z) (cplx : bool),
    let Nfloat := bench_Nfloat BK cfg N cplx in
    Nmax_of cplx N <= Nfloat /\
    Nmax_of cplx (nextPow2N_of BK N) <= Nfloat /\
    Nmax_of cplx (pffftPow2N_of cfg N cplx) <= Nfloat.
Proof.
  intros K BK cfg N cplx Nfloat. unfold Nfloat, bench_Nfloat, Nmax_of.
  assert (HN : N <= pffftPow2N_of cfg N cplx).
  { unfold pffftPow2N_of. destruct (PFFFT_SIMD_DISABLE cfg); [lia|].
    destruct cplx; rewrite MAX_is_max; lia. }
  rewrite !MAX_is_max. destruct cplx; lia.
Qed.

Lemma fold_store_cells (g : Z -> float) :
  forall (l : list Z) (X : buffer) (k : Z),
    fold_left (fun X k => store X k (g k)) l X k
    = if existsb (Z.eqb k) l then g k else X k.
Proof.
  induction l as [|j l IH]; intros X k; [reflexivity|].
  cbn [fold_left existsb]. rewrite IH. unfold store.
  destruct (existsb (Z.eqb k) l); [now rewrite orb_true_r|].
  rewrite orb_false_r. destruct (Z.eqb_spec k j) as [->|Hne]; reflexivity.
Qed.

Lemma strided_spec (n stride k : Z) :
  0 < stride ->
  existsb (Z.eqb k) (strided n stride) = (0 <=? k) && (k <? n) && (k mod stride =? 0).
Proof.
  intros Hs. unfold strided.
  apply eq_true_iff_eq. rewrite existsb_exists, !andb_true_iff.
  rewrite Z.leb_le, Z.ltb_lt, Z.eqb_eq. split.
  - intros (x & Hin & Hx). apply Z.eqb_eq in Hx. subst x.
    apply in_map_iff in Hin. destruct Hin as (i & <- & Hi).
    apply in_seq in Hi.
    assert (Hc : Z.of_nat i < (n + stride - 1) / stride).
    { destruct (Z_lt_le_dec 0 ((n + stride - 1) / stride)); lia. }
    split; [split|].
    + nia.
    + assert (stride * Z.of_nat i + stride <= n + stride - 1); [|lia].
      assert (stride * (Z.of_nat i + 1) <= stride * ((n + stride - 1) / stride)) by nia.
      pose proof (Z.mul_div_le (n + stride - 1) stride Hs). lia.
    + apply Z.mod_mul. lia.
  - intros [[H0 Hn] Hm].
    exists k. split; [|apply Z.eqb_refl].
    apply in_map_iff. exists (Z.to_nat (k / stride)). split.
    + rewrite Z2Nat.id by (apply Z.div_pos; lia).
      pose proof (Z.div_mod k stride ltac:(lia)). lia.
    + apply in_seq. split; [lia|]. simpl.
      apply Z2Nat.inj_lt; [apply Z.div_pos; lia| |].
      * apply Z.div_pos; lia.
      * apply Z.div_lt_upper_bound; [lia|].
        pose proof (Z.div_mod k stride ltac:(lia)).
        pose proof (Z.div_mod (n + stride - 1) stride ltac:(lia)).
        pose proof (Z.mod_pos_bound (n + stride - 1) stride Hs).
        nia.
Qed.

(** X8.  What the timed transforms start from: after the [memset] and
    the loop that follows it, cell [k < Nfloat] of [X] holds
    [sqrtf(k+1)] when [k] is a multiple of the stride ([4] below 32
    cells, [Nfloat/16] from there on) and [0] otherwise; the cell past
    [Nfloat] is not written. *)
Theorem bench_input_cells :
  forall (junk : float) (Nfloat k : Z),
    let stride := if Nfloat <? 32 then 4 else Nfloat / 16 in
    bench_input junk Nfloat k
    = if (0 <=? k) && (k <? Nfloat)
      then if k mod stride =? 0 then F32.sqrt (F32.of_Z (k + 1)) else F32.zero
      else junk.
Proof.
  intros junk Nfloat k stride. unfold bench_input. fold stride.
  rewrite fold_store_cells, strided_spec.
  - destruct ((0 <=? k) && (k <? Nfloat)); [|reflexivity].
    cbn [andb]. now destruct (k mod stride =? 0).
  - unfold stride. destruct (Z.ltb_spec Nfloat 32); [lia|].
    apply Z.div_str_pos. lia.
Qed.

(** ** More of the measurement table *)

(** X9.  The flags of [haveAlgo] are only ever set: an algorithm flagged
    before a call of [benchmark_ffts] is flagged after it, and FFTPACK,
    which is always compiled in and needs no setup, is flagged by every
    call that returns. *)
Theorem haveAlgo_only_set :
  forall {K : ValKernel} (BK : BenchAPI.t K) (cfg : build) (clk : nat -> double)
         (fuel : nat) (junk : float) (N : Z) (cplx withFFTWfullMeas : bool)
         (iterCal : double) (haveAlgo0 : have_t) (n n' : nat) (tm : table) (h : have_t),
    benchmark_ffts BK cfg clk fuel junk N cplx withFFTWfullMeas iterCal haveAlgo0 n
      = Returns (tm, h, n') ->
    (forall a, haveAlgo0 a = true -> h a = true) /\ h ALGO_FFTPACK = true.
Proof.
  intros K BK cfg clk fuel junk N cplx w iterCal h0 n n' tm h H.
  apply benchmark_ffts_columns in H. destruct H as (step_iter & _ & Hcols). split.
  - intros a Ha.
    destruct (Hcols a) as (sa & sa' & na & na' & st & Hsec & _ & H0 & [_ Hpost] & -> & _).
    apply section_effect in Hsec. destruct Hsec as (_ & _ & _ & Hflag & _).
    rewrite Hpost. destruct Hflag as [[_ Hsame]|Hset]; [|exact Hset].
    now rewrite Hsame, H0.
  - destruct (Hcols ALGO_FFTPACK)
      as (sa & sa' & na & na' & st & Hsec & _ & _ & [_ Hpost] & -> & _).
    rewrite Hpost. cbn [section_of] in Hsec. unfold bench_fftpack in Hsec. cbv zeta in Hsec.
    apply guarded_measure_returns in Hsec. now destruct Hsec as (_ & Hset & _).
Qed.

Lemma haveAlgo_only_set_witness :
  match benchmark_ffts bench_512 plain_build second_clock 1 F32.zero 64 false false
          (F64.of_Z 1000) (fun a => if algo_eq_dec a ALGO_KISS then true else false)
          0%nat return Prop with
  | Returns (tm, h, _) => h ALGO_KISS = true /\ h ALGO_FFTPACK = true
  | _ => False
  end.
Proof.
  pose proof (haveAlgo_only_set bench_512 plain_build second_clock 1%nat F32.zero 64 false
                false (F64.of_Z 1000)
                (fun a => if algo_eq_dec a ALGO_KISS then true else false) 0%nat) as H.
  assert (E : exists r, benchmark_ffts bench_512 plain_build second_clock 1 F32.zero 64
                          false false (F64.of_Z 1000)
                          (fun a => if algo_eq_dec a ALGO_KISS then true else false) 0%nat
                        = Returns r).
  { vm_compute. eexists. reflexivity. }
  destruct E as [[[tm h] n'] E]. rewrite E.
  destruct (H n' tm h E) as [Hkeep Hpack]. split; [|exact Hpack].
  apply Hkeep. reflexivity.
Defined.

Lemma measured_tset (h : have_t) (tm : table) (K0 : mtype) (x : algo) (v : double) :
  K0 <> TYPE_DUR_NS ->
  forall a, measured h (tset tm K0 x v) a = measured h tm a.
Proof.
  intros HK0 a. unfold measured. now rewrite tset_other_type by auto.
Qed.

(** A loop over the algorithms that writes entry [K0] of the measured
    columns from the durations: what it leaves in an entry. *)
Lemma relative_fold_values (h : have_t) (K0 : mtype) (f : table -> algo -> double) :
  K0 <> TYPE_DUR_NS ->
  (forall t t' a, (forall a', t TYPE_DUR_NS a' = t' TYPE_DUR_NS a') -> f t a = f t' a) ->
  forall (l : list algo) (tm : table) (a : algo),
    NoDup l ->
    fold_left (fun tm a => if measured h tm a then tset tm K0 a (f tm a) else tm) l tm K0 a
    = if in_dec algo_eq_dec a l then (if measured h tm a then f tm a else tm K0 a)
      else tm K0 a.
Proof.
  intros HK0 Hf. induction l as [|x l IH]; intros tm a Hnd; [reflexivity|].
  inversion Hnd as [|? ? Hx Hnd']; subst. cbn [fold_left].
  set (tm1 := if measured h tm x then tset tm K0 x (f tm x) else tm).
  assert (Hm : forall a', measured h tm1 a' = measured h tm a').
  { intros a'. unfold tm1. destruct (measured h tm x); [|reflexivity].
    now apply measured_tset. }
  assert (Hd : forall a', tm1 TYPE_DUR_NS a' = tm TYPE_DUR_NS a').
  { intros a'. unfold tm1. destruct (measured h tm x); [|reflexivity].
    now rewrite tset_other_type by auto. }
  rewrite (IH tm1 a Hnd'), Hm, (Hf tm1 tm a Hd).
  destruct (in_dec algo_eq_dec a l) as [Hin|Hout];
    destruct (in_dec algo_eq_dec a (x :: l)) as [Hin'|Hout'].
  - destruct (measured h tm a); [reflexivity|].
    unfold tm1. destruct (measured h tm x); [|reflexivity].
    apply tset_other_algo. intros ->. contradiction.
  - exfalso. apply Hout'. now right.
  - destruct Hin' as [->|Hin']; [|contradiction].
    unfold tm1. destruct (measured h tm a); [|reflexivity]. apply tset_same.
  - unfold tm1. destruct (measured h tm x); [|reflexivity].
    apply tset_other_algo. intros ->. apply Hout'. now left.
Qed.

(** X10.  The two relative columns, entry by entry.  For an algorithm
    with its flag set and a positive duration, [TYPE_DUR_FASTEST] is its
    duration over [Tfastest] (when [Tfastest > 0]) and [TYPE_REL_PFFFT]
    is its duration over the duration of the ordered PFFFT; the entries
    of the other algorithms, and every other field of the table, are
    left as they are. *)
Theorem relative_columns_values :
  forall (h : have_t) (tm : table) (a : algo),
    let tm' := relative_pffft h (relative_fastest h tm) in
    tm' TYPE_DUR_FASTEST a
    = (if F64.gtb (Tfastest_of tm) F64.zero && measured h tm a
       then F64.div (tm TYPE_DUR_NS a) (Tfastest_of tm)
       else tm TYPE_DUR_FASTEST a) /\
    tm' TYPE_REL_PFFFT a
    = (if measured h tm a
       then F64.div (tm TYPE_DUR_NS a) (tm TYPE_DUR_NS ALGO_PFFFT_O)
       else tm TYPE_REL_PFFFT a) /\
    (forall k, k <> TYPE_DUR_FASTEST -> k <> TYPE_REL_PFFFT -> tm' k a = tm k a).
Proof.
  intros h tm a tm'.
  assert (Hin : forall x, exists p, in_dec algo_eq_dec x all_algos = left p).
  { intros x. destruct (in_dec algo_eq_dec x all_algos) as [p|n]; [now exists p|].
    exfalso. apply n, all_algos_complete. }
  assert (Hfast : forall x,
            relative_fastest h tm TYPE_DUR_FASTEST x
            = (if F64.gtb (Tfastest_of tm) F64.zero && measured h tm x
               then F64.div (tm TYPE_DUR_NS x) (Tfastest_of tm)
               else tm TYPE_DUR_FASTEST x)).
  { intros x. unfold relative_fastest. destruct (F64.gtb (Tfastest_of tm) F64.zero);
      [|reflexivity].
    rewrite (relative_fold_values h TYPE_DUR_FASTEST
               (fun t a => F64.div (t TYPE_DUR_NS a) (Tfastest_of tm))
               ltac:(discriminate)); [| |apply all_algos_NoDup].
    - destruct (Hin x) as [p ->]. reflexivity.
    - intros t t' a0 Ht. now rewrite Ht. }
  assert (Hother : forall k x, k <> TYPE_DUR_FASTEST -> relative_fastest h tm k x = tm k x).
  { intros k x Hk. unfold relative_fastest. destruct (F64.gtb _ _); [|reflexivity].
    destruct (relative_fold_frame h TYPE_DUR_FASTEST
                (fun t a => F64.div (t TYPE_DUR_NS a) (Tfastest_of tm))
                ltac:(discriminate) all_algos tm) as [H1 _].
    now apply H1. }
  assert (Hmeas : forall x, measured h (relative_fastest h tm) x = measured h tm x).
  { intros x. unfold measured. now rewrite Hother by discriminate. }
  destruct (relative_fold_frame h TYPE_REL_PFFFT
              (fun t a => F64.div (t TYPE_DUR_NS a) (t TYPE_DUR_NS ALGO_PFFFT_O))
              ltac:(discriminate) all_algos (relative_fastest h tm)) as [Hp1 _].
  fold (relative_pffft h (relative_fastest h tm)) in Hp1.
  split; [|split].
  - unfold tm'. rewrite Hp1 by discriminate. apply Hfast.
  - unfold tm', relative_pffft.
    rewrite (relative_fold_values h TYPE_REL_PFFFT
               (fun t a => F64.div (t TYPE_DUR_NS a) (t TYPE_DUR_NS ALGO_PFFFT_O))
               ltac:(discriminate)); [| |apply all_algos_NoDup].
    + destruct (Hin a) as [p ->]. rewrite Hmeas, !Hother by discriminate. reflexivity.
    + intros t t' a0 Ht. now rewrite !Ht.
  - intros k Hk1 Hk2. unfold tm'. rewrite Hp1 by exact Hk2. now apply Hother.
Qed.

(** ** More of the driver *)

Section RowOrder.
Context {K : ValKernel} (BK : BenchAPI.t K).
Variable cfg : build.
Variable o : options.
Variable clk : nat -> double.
Variable fuel : nat.
Variable junk : float.

Lemma bench_one_cells (iterCal : double) (N : Z) (cplx : bool) (acc acc' : list row * have_t)
    (n n' : nat) :
  bench_one BK cfg o clk fuel junk iterCal N cplx acc n = Returns (acc', n') ->
  map fst (fst acc') = map fst (fst acc) ++ [(N, cplx)].
Proof.
  unfold bench_one. intros H.
  apply bbind_returns in H. destruct H as ([tm h] & n1 & _ & H).
  unfold bret in H. inversion H; subst; clear H. cbn [fst].
  now rewrite map_app.
Qed.

Lemma bench_if_cells (flag : bool) (iterCal : double) (N : Z) (cplx : bool)
    (acc acc' : list row * have_t) (n n' : nat) :
  (if flag then bench_one BK cfg o clk fuel junk iterCal N cplx acc else bret acc) n
    = Returns (acc', n') ->
  map fst (fst acc') = map fst (fst acc) ++ (if flag then [(N, cplx)] else []).
Proof.
  destruct flag; intros H.
  - now apply bench_one_cells in H.
  - unfold bret in H. inversion H; subst. now rewrite app_nil_r.
Qed.

Lemma bench_domain_cells (iterCal : double) (cplx : bool) :
  forall (sizes : list Z) (acc acc' : list row * have_t) (n n' : nat),
    bench_domain BK cfg o clk fuel junk iterCal cplx sizes acc n = Returns (acc', n') ->
    map fst (fst acc') = map fst (fst acc) ++ map (fun N => (N, cplx)) sizes.
Proof.
  induction sizes as [|N sizes IH]; intros acc acc' n n' H.
  - simpl in H. unfold bret in H. inversion H; subst. now rewrite app_nil_r.
  - cbn [bench_domain] in H. apply bbind_returns in H. destruct H as (acc1 & n1 & H1 & H).
    apply bench_one_cells in H1. apply IH in H. rewrite H, H1, <- app_assoc. reflexivity.
Qed.

Lemma bench_table_cells (iterCalReal iterCalCplx : double) :
  forall (sizes : list Z) (acc acc' : list row * have_t) (n n' : nat),
    bench_table BK cfg o clk fuel junk iterCalReal iterCalCplx sizes acc n
      = Returns (acc', n') ->
    map fst (fst acc')
    = map fst (fst acc)
      ++ flat_map (fun N => (if benchReal o then [(N, false)] else [])
                            ++ (if benchCplx o then [(N, true)] else [])) sizes.
Proof.
  induction sizes as [|N sizes IH]; intros acc acc' n n' H.
  - simpl in H. unfold bret in H. inversion H; subst. now rewrite app_nil_r.
  - cbn [bench_table] in H.
    apply bbind_returns in H. destruct H as (t0 & n1 & _ & H).
    apply bbind_returns in H. destruct H as (acc1 & n2 & Hr & H).
    apply bbind_returns in H. destruct H as (acc2 & n3 & Hc & H).
    apply bbind_returns in H. destruct H as (t1 & n4 & _ & H).
    apply bench_if_cells in Hr. apply bench_if_cells in Hc. apply IH in H.
    rewrite H, Hc, Hr. cbn [flat_map]. now rewrite <- !app_assoc.
Qed.
End RowOrder.

Lemma flat_map_singleton {A B} (f : A -> B) (l : list A) :
  flat_map (fun x => [f x]) l = map f l.
Proof. induction l as [|x l IH]; [reflexivity|]. simpl. now rewrite IH. Qed.

Lemma flat_map_nil {A B} (l : list A) : flat_map (fun _ : A => @nil B) l = [].
Proof. induction l as [|x l IH]; [reflexivity|exact IH]. Qed.

(** X11.  The rows of a run: one per call of [benchmark_ffts], in the order
    of the calls.  In the table format the sizes are taken one after the
    other, each in the real domain and then in the complex one; in the
    other format the whole sweep runs in the real domain first.  A domain
    that is not selected has no row. *)
Theorem rows_follow_the_sweep :
  forall {K : ValKernel} (BK : BenchAPI.t K) (cfg : build) (o : options)
         (rand : bool -> Z -> nat -> Z) (clk : nat -> double) (fuel : nat) (junk : float)
         (out : list msg) (rows : list row) (h : have_t),
    main BK cfg o rand clk fuel junk = (out, Returns (rows, h)) ->
    map fst rows = sweep_cells o.
Proof.
  intros K BK cfg o rand clk fuel junk out rows h H.
  apply main_returns in H. destruct H as [n' H]. unfold timed_part in H.
  apply bbind_returns in H. destruct H as (t0 & n1 & _ & H).
  apply bbind_returns in H. destruct H as (iterCalReal & n2 & _ & H).
  apply bbind_returns in H. destruct H as (iterCalCplx & n3 & _ & H).
  apply bbind_returns in H. destruct H as (t1 & n4 & _ & H).
  unfold sweep_cells. destruct (array_output_format o).
  - apply bench_table_cells in H. exact H.
  - apply bbind_returns in H. destruct H as (acc1 & n5 & Hr & H).
    assert (Hreal : map fst (fst acc1)
                    = flat_map (fun n : Z => if benchReal o then [(n, false)] else [])
                               (Nvalues o)).
    { destruct (benchReal o).
      - apply bench_domain_cells in Hr. rewrite Hr. simpl. now rewrite flat_map_singleton.
      - unfold bret in Hr. inversion Hr; subst. simpl. now rewrite flat_map_nil. }
    destruct (benchCplx o).
    + apply bench_domain_cells in H. change (fst (rows, h)) with rows in H.
      rewrite H, Hreal. now rewrite flat_map_singleton.
    + unfold bret in H. inversion H; subst. change (fst (rows, h)) with rows in Hreal.
      rewrite Hreal, flat_map_nil. now rewrite app_nil_r.
Qed.

Lemma rows_follow_the_sweep_witness :
  match default_run return Prop with
  | (_, Returns (rows, _)) => map fst rows = sweep_cells default_options
  | _ => False
  end.
Proof.
  pose proof default_run_measures_16 as Hrun.
  destruct default_run as [out [[rows h]| | | |]] eqn:E; try contradiction.
  clear Hrun.
  exact (rows_follow_the_sweep bench_32_512 plain_build default_options
           (fun _ => toy_rand_all) second_clock 2%nat F32.zero out rows h E).
Defined.

(** X12.  The calibration needs a PFFFT setup for size 512.  When the
    validation returns and the real domain is selected, a PFFFT without a
    real setup for 512 fails the [assert] of [cal_benchmark]: [main]
    aborts before the first measurement. *)
Theorem calibration_needs_512 :
  forall {K : ValKernel} (BK : BenchAPI.t K) (cfg : build) (o : options)
         (rand : bool -> Z -> nat -> Z) (clk : nat -> double) (fuel : nat) (junk : float),
    snd (pffft_validate K (rand true) true ;; pffft_validate K (rand false) false)
      = Returns tt ->
    benchReal o = true ->
    pffft_new_setup K 512 PFFFT_REAL = None ->
    snd (main BK cfg o rand clk fuel junk) = Aborts.
Proof.
  intros K BK cfg o rand clk fuel junk Hv Hreal Hnone. unfold main.
  destruct (bind _ _) as [out r]. cbn [snd] in Hv. subst r. cbn [snd].
  unfold timed_part. rewrite Hreal.
  unfold bbind at 1. unfold uclock_sec at 1.
  unfold bbind at 1.
  assert (E : cal_benchmark BK clk fuel junk 512 false 1%nat = Aborts).
  { unfold cal_benchmark, cal_loop, bbind, lift.
    change (kind_of false) with PFFFT_REAL. rewrite Hnone.
    now destruct (BenchAPI.pffft_is_power_of_two BK 512). }
  now rewrite E.
Qed.

Lemma calibration_needs_512_witness :
  snd (main (toy_bench (toy_kernel (fun _ => false)) (fun _ => ident_call)) plain_build
            default_options (fun _ => toy_rand_all) second_clock 2 F32.zero)
  = Aborts.
Proof.
  apply (calibration_needs_512 (toy_bench (toy_kernel (fun _ => false)) (fun _ => ident_call))
           plain_build default_options (fun _ => toy_rand_all) second_clock 2%nat F32.zero).
  - vm_compute. reflexivity.
  - reflexivity.
  - reflexivity.
Defined.

(** ** More of the validation: the order of the reference *)

Lemma shift_up_cells :
  forall (n : nat) (r : list float) (i : nat),
    (n + 1 < length r)%nat ->
    rd (fold_left (fun r k => upd r (S k) (rd r k)) (rev (seq 1 n)) r) i
    = if ((2 <=? i) && (i <=? n + 1))%nat then rd r (i - 1) else rd r i.
Proof.
  induction n as [|n IH]; intros r i Hlen.
  - cbn [seq rev fold_left].
    destruct (Nat.leb_spec 2 i); [|reflexivity].
    destruct (Nat.leb_spec i (0 + 1)); [lia|reflexivity].
  - rewrite seq_S, rev_app_distr. cbn [rev app fold_left].
    replace (1 + n)%nat with (S n) by lia.
    rewrite IH by (rewrite length_upd; lia).
    destruct (Nat.leb_spec 2 i) as [H2|H2]; cbn [andb].
    + destruct (Nat.leb_spec i (n + 1)) as [Hi|Hi].
      * destruct (Nat.leb_spec i (S n + 1)); [|lia].
        apply rd_upd_other. lia.
      * destruct (Nat.leb_spec i (S n + 1)) as [Hi'|Hi'].
        -- assert (i = S (S n)) by lia. subst i.
           rewrite rd_upd_same by lia.
           now replace (S (S n) - 1)%nat with (S n) by lia.
        -- apply rd_upd_other. lia.
    + apply rd_upd_other. lia.
Qed.

Lemma shift_up_length :
  forall (l : list nat) (r : list float),
    length (fold_left (fun r k => upd r (S k) (rd r k)) l r) = length r.
Proof.
  induction l as [|k l IH]; intros r; [reflexivity|].
  cbn [fold_left]. rewrite IH. apply length_upd.
Qed.

(** X13.  The reordering of the FFTPACK spectrum of a real transform: the
    last coefficient moves to cell 1 and the coefficients [1 .. N-2] move
    up by one; cell 0 stays, and so does the length. *)
Theorem fftpack_to_pffft_order_cells :
  forall (N : Z) (ref : list float),
    2 <= N <= Z.of_nat (length ref) ->
    let out := fftpack_to_pffft_order N ref in
    length out = length ref /\
    rd out 0 = rd ref 0 /\
    rd out 1 = rd ref (Z.to_nat (N - 1)) /\
    (forall k, (2 <= k < Z.to_nat N)%nat -> rd out k = rd ref (k - 1)) /\
    (forall k, (Z.to_nat N <= k)%nat -> rd out k = rd ref k).
Proof.
  intros N ref HN out. subst out. unfold fftpack_to_pffft_order. cbv zeta.
  set (shifted := fold_left _ _ ref).
  assert (Hlen : length shifted = length ref) by apply shift_up_length.
  assert (Hcell : forall i, rd shifted i
                  = if ((2 <=? i) && (i <=? Z.to_nat (N - 2) + 1))%nat
                    then rd ref (i - 1) else rd ref i).
  { intros i. unfold shifted. apply shift_up_cells. lia. }
  split; [now rewrite length_upd|]. split; [|split; [|split]].
  - rewrite rd_upd_other by lia. now rewrite Hcell.
  - apply rd_upd_same. lia.
  - intros k Hk. rewrite rd_upd_other by lia. rewrite Hcell.
    destruct (Nat.leb_spec 2 k); [|lia].
    destruct (Nat.leb_spec k (Z.to_nat (N - 2) + 1)); [reflexivity|lia].
  - intros k Hk. rewrite rd_upd_other by lia. rewrite Hcell.
    destruct (Nat.leb_spec 2 k); [|lia].
    destruct (Nat.leb_spec k (Z.to_nat (N - 2) + 1)); [lia|reflexivity].
Qed.

Lemma fftpack_to_pffft_order_cells_witness :
  fftpack_to_pffft_order 4 (map F32.of_Z [10; 11; 12; 13]) = map F32.of_Z [10; 13; 11; 12]
  /\ length (fftpack_to_pffft_order 4 (map F32.of_Z [10; 11; 12; 13])) = 4%nat
  /\ rd (fftpack_to_pffft_order 4 (map F32.of_Z [10; 11; 12; 13])) 1 = F32.of_Z 13.
Proof.
  destruct (fftpack_to_pffft_order_cells 4 (map F32.of_Z [10; 11; 12; 13]))
    as (Hlen & _ & H1 & _).
  - simpl. lia.
  - split; [vm_compute; reflexivity|]. split; [exact Hlen|]. rewrite H1. reflexivity.
Defined.

(** ** The integer helper and the sizes of the sweep *)

(** X14.  [Log2] brackets its argument between two powers of two: for a
    positive 32-bit [v], [2^Log2(v) <= v < 2^(Log2(v)+1)]. *)
Theorem Log2_brackets :
  forall v : Z, 0 < v < 2 ^ 32 -> 2 ^ Log2 v <= v < 2 ^ (Log2 v + 1).
Proof.
  intros v H. rewrite Log2_is_log2 by exact H. apply Z.log2_spec. lia.
Qed.

Lemma Log2_brackets_witness : 2 ^ Log2 800 <= 800 < 2 ^ (Log2 800 + 1).
Proof. apply (Log2_brackets 800). lia. Defined.

(** X15.  The [int] arithmetic of [benchmark_ffts] stays in range on the
    sizes [main] sweeps: for each of them [log2N * N], the divisor of the
    iteration target, is positive, and it and the guard index [2 * N] of
    the complex domain are below [2^31]. *)
Theorem sweep_products_fit_int :
  forall N : Z,
    In N (Npow2 ++ NnonPow2) ->
    2 <= N /\ 0 < Log2 N * N <= INT_MAX /\ Nmax_of true N <= INT_MAX.
Proof.
  intros N HN.
  assert (H : forallb (fun N => (2 <=? N) && (0 <? Log2 N * N) && (Log2 N * N <=? INT_MAX)
                                && (Nmax_of true N <=? INT_MAX))
                      (Npow2 ++ NnonPow2) = true) by (vm_compute; reflexivity).
  rewrite forallb_forall in H. specialize (H N HN).
  rewrite !andb_true_iff in H. destruct H as [[[H1 H2] H3] H4].
  apply Z.leb_le in H1. apply Z.ltb_lt in H2. apply Z.leb_le in H3. apply Z.leb_le in H4.
  lia.
Qed.

Lemma sweep_products_fit_int_witness :
  2 <= 1048576 /\ 0 < Log2 1048576 * 1048576 <= INT_MAX /\ Nmax_of true 1048576 <= INT_MAX.
Proof.
  apply (sweep_products_fit_int 1048576). vm_compute. tauto.
Defined.

(** ** More of the validation: the backward transform and the output *)

Lemma backward_loop_cells (N : Z) (tmp2 : list float) :
  forall (l : list nat) (out out' : list float),
    NoDup l ->
    snd (backward_loop N l tmp2 out) = Returns out' ->
    length out' = length out /\
    forall k, (k < length out)%nat ->
      rd out' k = if in_dec Nat.eq_dec k l
                  then F32.mul (rd out k) (F32.div F32.one (F32.of_Z N))
                  else rd out k.
Proof.
  induction l as [|j l IH]; intros out out' Hnd H.
  - simpl in H. inversion H; subst. now split.
  - simpl in H. apply bind_snd_returns in H. destruct H as ([] & _ & H).
    inversion Hnd as [|? ? Hnotin Hnd']; subst.
    apply IH in H; [|exact Hnd']. destruct H as [Hlen Hcells].
    rewrite length_upd in Hlen, Hcells. split; [exact Hlen|].
    intros k Hk. rewrite (Hcells k Hk).
    destruct (in_dec Nat.eq_dec k l) as [Hin|Hout];
      destruct (in_dec Nat.eq_dec k (j :: l)) as [Hin'|Hout'].
    + rewrite rd_upd_other; [reflexivity|]. intros ->. contradiction.
    + exfalso. apply Hout'. now right.
    + destruct Hin' as [->|Hin']; [|contradiction]. now apply rd_upd_same.
    + apply rd_upd_other. intros ->. apply Hout'. now left.
Qed.

(** X16.  The scaling of the backward transform: when the backward stage
    of a pass returns, every cell of [out] below [Nfloat] holds the
    in-place backward transform multiplied by the [float] [1.f/N], each
    cell scaled once. *)
Theorem backward_stage_scales :
  forall (K : ValKernel) (s : Setup K) (N : Z) (cplx : bool) (pass : Z)
         (tmp out : list float) (k : nat),
    snd (backward_stage K s N cplx pass tmp) = Returns out ->
    (k < Nfloat_of N cplx)%nat ->
    (Nfloat_of N cplx <= length (transform_of K s pass tmp true PFFFT_BACKWARD))%nat ->
    rd out k = F32.mul (rd (transform_of K s pass tmp true PFFFT_BACKWARD) k)
                       (F32.div F32.one (F32.of_Z N)).
Proof.
  intros K s N cplx pass tmp out k H Hk Hlen. unfold backward_stage in H. cbv zeta in H.
  apply backward_loop_cells in H; [|apply seq_NoDup]. destruct H as [_ Hcells].
  rewrite (Hcells k) by lia.
  destruct (in_dec Nat.eq_dec k (seq 0 (Nfloat_of N cplx))) as [_|Hout]; [reflexivity|].
  exfalso. apply Hout, in_seq. lia.
Qed.

Lemma backward_stage_scales_witness :
  let K := toy_kernel (fun _ => true) in
  let tmp := random_input K 16 true toy_rand in
  match backward_stage K (16, PFFFT_COMPLEX) 16 true 0 tmp return Prop with
  | (_, Returns out) =>
      rd out 3 = F32.mul (rd (transform_of K (16, PFFFT_COMPLEX) 0 tmp true PFFFT_BACKWARD) 3)
                         (F32.div F32.one (F32.of_Z 16))
  | _ => False
  end.
Proof.
  intros K tmp.
  pose proof (backward_stage_scales K (16, PFFFT_COMPLEX) 16 true 0 tmp) as H.
  assert (E : exists out, snd (backward_stage K (16, PFFFT_COMPLEX) 16 true 0 tmp)
                          = Returns out).
  { vm_compute. eexists. reflexivity. }
  destruct E as [out E].
  destruct (backward_stage K (16, PFFFT_COMPLEX) 16 true 0 tmp) as [l r].
  cbn [snd] in E, H. subst r.
  apply (H out 3%nat eq_refl).
  - vm_compute. lia.
  - vm_compute. lia.
Defined.

Lemma for_each_silent_returns (ks : list nat) (body : nat -> V unit) :
  (forall k, snd (body k) = Returns tt -> fst (body k) = []) ->
  snd (for_each ks body) = Returns tt -> fst (for_each ks body) = [].
Proof.
  intros Hb. induction ks as [|k ks IH]; [reflexivity|].
  cbn [for_each]. intros H.
  pose proof H as H'. apply bind_snd_returns in H'. destruct H' as ([] & Hk & Hrest).
  rewrite (bind_fst_snd _ _ tt Hk). cbn [fst].
  now rewrite (Hb k Hk), (IH Hrest).
Qed.

Lemma backward_loop_silent (N : Z) (tmp2 : list float) :
  forall (l : list nat) (out : list float), fst (backward_loop N l tmp2 out) = [].
Proof.
  induction l as [|k l IH]; intros out; [reflexivity|].
  cbn [backward_loop]. apply bind_silent; [|intros _; apply IH].
  unfold assert. now destruct (F32.eqb _ _).
Qed.

Lemma roundtrip_loop_output (N : Z) (cplx : bool) (pass : Z) (inp out : list float)
    (ref_max : float) :
  forall l : list nat,
    exists m : bool,
      roundtrip_loop N cplx pass l inp out ref_max
      = ((if m then [MsgIFFTMismatch pass cplx N] else []), Returns tt).
Proof.
  induction l as [|k l IH]; cbn [roundtrip_loop].
  - now exists false.
  - destruct (roundtrip_mismatch _ _ _); [now exists true|exact IH].
Qed.

(** What a pass that returns has printed: the round-trip line, or
    nothing. *)
Lemma validate_pass_output (K : ValKernel) (s : Setup K) (N : Z) (cplx : bool)
    (inp ref : list float) (pass : Z) :
  snd (validate_pass K s N cplx inp ref pass) = Returns tt ->
  exists m : bool,
    fst (validate_pass K s N cplx inp ref pass)
    = if m then [MsgIFFTMismatch pass cplx N] else [].
Proof.
  unfold validate_pass. intros H.
  pose proof H as H'.
  apply bind_snd_returns in H'. destruct H' as ([tmp out] & Hf & H1).
  rewrite (bind_fst_snd _ _ _ Hf), forward_stage_silent in *. cbn [app fst snd].
  pose proof H1 as H1'.
  apply bind_snd_returns in H1'. destruct H1' as ([] & Hc & H2).
  rewrite (bind_fst_snd _ _ _ Hc).
  assert (Hcs : fst (forward_check N cplx ref out (ref_max_of N cplx ref)) = []).
  { unfold forward_check in *. apply for_each_silent_returns; [|exact Hc].
    intros k. destruct (forward_mismatch _ _ _); [discriminate|reflexivity]. }
  rewrite Hcs. cbn [app fst].
  pose proof H2 as H2'.
  apply bind_snd_returns in H2'. destruct H2' as (out' & Hb & H3).
  rewrite (bind_fst_snd _ _ _ Hb).
  unfold backward_stage at 1. cbv zeta. rewrite backward_loop_silent. cbn [app fst].
  destruct (roundtrip_loop_output N cplx pass inp out' (ref_max_of N cplx ref)
              (seq 0 (Nfloat_of N cplx))) as [m Hm].
  rewrite Hm in *. exists m. cbn [bind].
  unfold conv_stage in *. cbv zeta in *.
  destruct (conv_exceeds _ _).
  - cbn in H3. discriminate.
  - cbn. now rewrite app_nil_r.
Qed.

(** X17.  What the validation of a supported size prints when it returns:
    at most one round-trip line per pass, then the "is OK" line.  A size
    whose inverse transform does not give the input back is still
    reported as OK. *)
Theorem validated_size_output :
  forall (K : ValKernel) (rand : nat -> Z) (N : Z) (cplx : bool) (s : Setup K),
    pffft_new_setup K N (kind_of cplx) = Some s ->
    snd (pffft_validate_N K rand N cplx) = Returns tt ->
    exists m0 m1 : bool,
      fst (pffft_validate_N K rand N cplx)
      = (if m0 then [MsgIFFTMismatch 0 cplx N] else [])
        ++ (if m1 then [MsgIFFTMismatch 1 cplx N] else [])
        ++ [MsgIsOK cplx N].
Proof.
  intros K rand N cplx s Hs. unfold pffft_validate_N. rewrite Hs.
  unfold validate_with_setup. cbv zeta. intros H.
  pose proof H as H'.
  apply bind_snd_returns in H'. destruct H' as ([] & H0 & H1).
  pose proof H1 as H1'.
  apply bind_snd_returns in H1'. destruct H1' as ([] & H2 & _).
  destruct (validate_pass_output _ _ _ _ _ _ _ H0) as [m0 E0].
  destruct (validate_pass_output _ _ _ _ _ _ _ H2) as [m1 E1].
  exists m0, m1.
  rewrite (bind_fst_snd _ _ tt H0), E0. cbn [fst].
  rewrite (bind_fst_snd _ _ tt H2), E1. reflexivity.
Qed.

Lemma validated_size_output_witness :
  exists m0 m1 : bool,
    fst (pffft_validate_N broken_inverse_kernel toy_rand 32 false)
    = (if m0 then [MsgIFFTMismatch 0 false 32] else [])
      ++ (if m1 then [MsgIFFTMismatch 1 false 32] else [])
      ++ [MsgIsOK false 32].
Proof.
  apply (validated_size_output broken_inverse_kernel toy_rand 32 false PFFFT_REAL).
  - reflexivity.
  - vm_compute. reflexivity.
Defined.
